(** * NetworkSonification: the weekly traffic notebook, stage by stage

    A shallow embedding of [Sonify_Weekly_Traffic_to_csv.ipynb].  The
    notebook is a chain of pandas cells:

      - cell "File Loading": the ingestion loop over [./input/*.csv],
        [pd.concat], [sort_values('Time')] and the positional renaming;
      - cell "Time-Based Features": [pd.to_datetime] and the three
        [np.where] flag columns, the ISO week and the year;
      - cell "Grouping by Week": [groupby(['Year','Week_Number']).agg];
      - cell "Scaling the data": [scaling_factor] and [out_quant_scaled];
      - cell "Capturing Trends": [shift], comparison and [where];
      - cell "Final Polish": [rename], column selection and [to_csv].

    A number read from a file is a rational ([Q]): the value of the
    int64 or float64 entry.  Arithmetic is float64 arithmetic: every
    sum, product and quotient is the exact result rounded to the nearest
    float64 number ([round64]), overflowing to an infinity.  A missing
    value (NaN, NaT) is written out wherever pandas has one, and an
    exception raised by a cell is an [Err]. *)

From Stdlib Require Import String Ascii List Bool Arith ZArith QArith Qabs Qround Lia Lqa.
From Stdlib Require Import Permutation Sorted DecimalString.
Import ListNotations.

Local Open Scope string_scope.
Local Open Scope Z_scope.
Local Open Scope list_scope.

(* ================================================================= *)
(** ** Exceptions *)

Inductive error : Type :=
| EmptyDataError   (* pandas.errors.EmptyDataError: no columns to parse *)
| ParserError      (* pandas.errors.ParserError: a line with too many fields *)
| ValueError       (* ValueError *)
| KeyError         (* KeyError: a column label that is not there *)
| TypeError.       (* TypeError: values that cannot be compared or averaged *)

Inductive result (A : Type) : Type :=
| Ok (a : A)
| Err (e : error).

Arguments Ok {A} a.
Arguments Err {A} e.

Definition bind {A B : Type} (r : result A) (k : A -> result B) : result B :=
  match r with
  | Ok a => k a
  | Err e => Err e
  end.

Notation "x <- r ;; k" := (bind r (fun x => k))
  (at level 61, r at next level, right associativity).

(* ================================================================= *)
(** ** Cells and data frames *)

(** One entry of a data frame as [pd.read_csv] delivers it: a number, a
    text, or the missing value. *)
Inductive cell : Type :=
| CNum (q : Q)
| CStr (s : string)
| CNaN.

(** A data frame: its column labels and its rows, every row holding one
    cell per column.  Row labels are left out: the notebook resets them
    ([ignore_index=True], [reset_index()]) and never reads them. *)
Record DataFrame : Type := mkFrame {
  columns : list string;
  rows : list (list cell)
}.

(** [df.shape[1]] *)
Definition shape1 (df : DataFrame) : nat := length (columns df).

(** [len(df)] *)
Definition nrows (df : DataFrame) : nat := length (rows df).

(** A CSV export as the reader meets it: the first line carries the
    column names, each later line is one record, split into fields.  A
    file without any line has no name in [first_line].  The names are
    those that the reader assigns: it tells a repeated name apart by a
    numbered suffix. *)
Record csv_file : Type := mkCsv {
  first_line : list string;
  data_lines : list (list cell)
}.

(** Pads a short record with NaN up to [n] fields. *)
Fixpoint pad (n : nat) (l : list cell) : list cell :=
  match n with
  | O => []
  | S n' =>
      match l with
      | [] => CNaN :: pad n' []
      | c :: l' => c :: pad n' l'
      end
  end.

(** The number of fields of the table that the reader builds: that of
    the header or that of the first record, whichever is greater. *)
Definition table_width (file : csv_file) : nat :=
  match data_lines file with
  | [] => length (first_line file)
  | r :: _ => Nat.max (length (first_line file)) (length r)
  end.

(** The fields of a record that become cells of the frame.  When the
    first record has more fields than the header has names, the leading
    fields in excess are row labels (the implicit index), not cells. *)
Definition record_cells (file : csv_file) (l : list cell) : list cell :=
  skipn (table_width file - length (first_line file)) (pad (table_width file) l).

(** [pd.read_csv(file)] with the header inferred: the first line becomes
    the column labels and is never a row of the frame; the records follow
    in file order.  A record with fewer fields than the table is filled
    with NaN; a record after the first with more fields than the table is
    a parser error; a file without a first line has no columns to
    parse. *)
Definition read_csv (file : csv_file) : result DataFrame :=
  match first_line file with
  | [] => Err EmptyDataError
  | _ :: _ =>
      if forallb (fun l => (length l <=? table_width file)%nat) (data_lines file)
      then Ok (mkFrame (first_line file)
                       (map (record_cells file) (data_lines file)))
      else Err ParserError
  end.

(** [df.iloc[1:]] *)
Definition iloc_from_1 (df : DataFrame) : DataFrame :=
  mkFrame (columns df) (tl (rows df)).

(** [x != 0] on one cell: numbers compare by value, a text or a NaN is
    never equal to 0. *)
Definition ne_zero (c : cell) : bool :=
  match c with
  | CNum q => negb (Qeq_bool q 0)
  | CStr _ => true
  | CNaN => true
  end.

(** [df.iloc[:, 2]] read in one row. *)
Definition iloc_col2 (r : list cell) : cell := nth 2 r CNaN.

(** [df[df.iloc[:, 2] != 0]] *)
Definition drop_zero_third (df : DataFrame) : DataFrame :=
  mkFrame (columns df) (filter (fun r => ne_zero (iloc_col2 r)) (rows df)).

(** *** The ingestion loop *)

(** The two variables the loop updates. *)
Record loop_state : Type := mkLoop {
  df_list : list DataFrame;
  header_flag : bool
}.

Definition loop_init : loop_state := mkLoop [] false.

(** One turn of [for file in files]. *)
Definition loop_body (st : loop_state) (file : csv_file) : result loop_state :=
  df_temp <- read_csv file ;;
  let '(df_temp, flag) :=
    if negb (header_flag st) then (df_temp, true)
    else (iloc_from_1 df_temp, header_flag st) in
  let df_temp :=
    if (2 <? shape1 df_temp)%nat then drop_zero_third df_temp else df_temp in
  Ok (mkLoop (df_list st ++ [df_temp]) flag).

Fixpoint loop (st : loop_state) (files : list csv_file) : result loop_state :=
  match files with
  | [] => Ok st
  | file :: files' => st' <- loop_body st file ;; loop st' files'
  end.

(** *** [pd.concat(df_list, ignore_index=True)] *)

Definition mem_str (s : string) (l : list string) : bool :=
  existsb (String.eqb s) l.

(** Labels of [l] not yet in [seen], in order. *)
Definition fresh_labels (seen l : list string) : list string :=
  filter (fun s => negb (mem_str s seen)) l.

(** The outer join of the column labels, in order of first appearance. *)
Definition union_columns (dfs : list DataFrame) : list string :=
  fold_left (fun acc df => acc ++ fresh_labels acc (columns df)) dfs [].

Fixpoint index_of (s : string) (l : list string) : option nat :=
  match l with
  | [] => None
  | x :: l' =>
      if String.eqb s x then Some O
      else match index_of s l' with
           | Some i => Some (S i)
           | None => None
           end
  end.

(** The row [r] of a frame with labels [cols], laid out on [target]: a
    label the frame does not have yields NaN. *)
Definition realign (cols target : list string) (r : list cell) : list cell :=
  map (fun s => match index_of s cols with
                | Some i => nth i r CNaN
                | None => CNaN
                end) target.

Definition concat (dfs : list DataFrame) : result DataFrame :=
  match dfs with
  | [] => Err ValueError           (* "No objects to concatenate" *)
  | _ =>
      let target := union_columns dfs in
      Ok (mkFrame target
            (flat_map (fun df => map (realign (columns df) target) (rows df)) dfs))
  end.

(** *** [df.sort_values('Time', ascending=True)] *)

(** Order of the sort keys: numbers by value, texts by code point, NaN
    after everything else. *)
Definition cell_leb (a b : cell) : bool :=
  match a, b with
  | CNaN, CNaN => true
  | CNaN, _ => false
  | _, CNaN => true
  | CNum p, CNum q => Qle_bool p q
  | CStr s, CStr t => String.leb s t
  | CNum _, CStr _ => true
  | CStr _, CNum _ => false
  end.

Definition is_num (c : cell) : bool :=
  match c with CNum _ => true | _ => false end.

Definition is_str (c : cell) : bool :=
  match c with CStr _ => true | _ => false end.

(** Python refuses to order a number against a text. *)
Definition comparable (keys : list cell) : bool :=
  negb (existsb is_num keys && existsb is_str keys).

Fixpoint insert_row (i : nat) (r : list cell) (l : list (list cell))
  : list (list cell) :=
  match l with
  | [] => [r]
  | r' :: l' =>
      if cell_leb (nth i r CNaN) (nth i r' CNaN) then r :: l
      else r' :: insert_row i r l'
  end.

(** Rows in ascending order of column [i].  Rows with equal keys come
    in the order of the frame; pandas' default sort promises no order
    among them. *)
Definition sort_rows (i : nat) (l : list (list cell)) : list (list cell) :=
  fold_right (insert_row i) [] l.

Definition sort_values (by_ : string) (df : DataFrame) : result DataFrame :=
  match index_of by_ (columns df) with
  | None => Err KeyError
  | Some i =>
      if comparable (map (fun r => nth i r CNaN) (rows df)) then
        Ok (mkFrame (columns df) (sort_rows i (rows df)))
      else Err TypeError
  end.

(** [df.columns = labels] *)
Definition set_columns (labels : list string) (df : DataFrame) : result DataFrame :=
  if (length labels =? shape1 df)%nat then Ok (mkFrame labels (rows df))
  else Err ValueError.              (* "Length mismatch" *)

(** *** The whole cell: from the discovered files to the daily table *)

Definition load_and_clean (files : list csv_file) : result DataFrame :=
  st <- loop loop_init files ;;
  df <- concat (df_list st) ;;
  df <- sort_values "Time" df ;;
  set_columns ["Time"; "in"; "out"] df.

(* ================================================================= *)
(** ** Calendar arithmetic behind the [.dt] accessor *)

(** A parsed [Time] value.  The time of day is left out: no derived
    column reads it. *)
Record Timestamp : Type := mkDate {
  year : Z;
  month : Z;
  day : Z
}.

(** [is_leapyear] *)
Definition is_leapyear (y : Z) : bool :=
  (Z.land y 3 =? 0) && (negb (y mod 100 =? 0) || (y mod 400 =? 0)).

(** Days before the first of each month, index 0 unused. *)
Definition em : list Z :=
  [0; 0; 31; 59; 90; 120; 151; 181; 212; 243; 273; 304; 334].

(** [dayofweek(y, m, d)], Gauss' method: 0 is Monday, 6 is Sunday. *)
Definition dayofweek (y m d : Z) : Z :=
  let y := if m <? 3 then y - 1 else y in
  let c := y / 100 in
  let g := y - c * 100 in
  let f := 5 * (c - (c / 4) * 4) in
  let e := nth (Z.to_nat m) em 0 in
  let e := if 2 <? m then e - 1 else e in
  (-1 + d + e + f + g + g / 4) mod 7.

Definition month_offset : list Z :=
  [0; 31; 59; 90; 120; 151; 181; 212; 243; 273; 304; 334; 365;
   0; 31; 60; 91; 121; 152; 182; 213; 244; 274; 305; 335; 366].

(** [get_day_of_year] *)
Definition get_day_of_year (y m d : Z) : Z :=
  let isleap := if is_leapyear y then 1 else 0 in
  nth (Z.to_nat (isleap * 13 + m - 1)) month_offset 0 + d.

(** The week component of [get_iso_calendar]. *)
Definition iso_week (y m d : Z) : Z :=
  let doy := get_day_of_year y m d in
  let dow := dayofweek y m d in
  let w := (doy - 1) - dow + 3 in
  let w := if 0 <=? w then w / 7 + 1 else w in
  if w <? 0 then
    if (-2 <? w) || ((w =? -2) && is_leapyear (y - 1)) then 53 else 52
  else if w =? 53 then
    if 31 - d + dow <? 3 then 1 else w
  else w.

Definition DAYS : list string :=
  ["Monday"; "Tuesday"; "Wednesday"; "Thursday"; "Friday"; "Saturday"; "Sunday"].

(** [.dt.day_name()] on one value. *)
Definition day_name (t : Timestamp) : string :=
  nth (Z.to_nat (dayofweek (year t) (month t) (day t))) DAYS EmptyString.

(** [.dt.is_month_start] *)
Definition is_month_start (t : Timestamp) : bool := day t =? 1.

(** [.dt.is_year_start] *)
Definition is_year_start (t : Timestamp) : bool := (month t =? 1) && (day t =? 1).

(** [.dt.isocalendar().week] *)
Definition isocalendar_week (t : Timestamp) : Z :=
  iso_week (year t) (month t) (day t).

(* ================================================================= *)
(** ** Time features *)

(** The daily table once [pd.to_datetime] has run: [Time] is a
    timestamp or NaT, [in] and [out] are numeric columns whose missing
    entries are NaN. *)
Module Parsed.
Record row : Type := mk {
  Time : option Timestamp;
  in_ : option Q;
  out : option Q
}.
End Parsed.

(** The enriched daily table. *)
Module Daily.
Record row : Type := mk {
  Time : option Timestamp;
  in_ : option Q;
  out : option Q;
  Week_Start : Z;
  Month_Start : Z;
  Year_Start : Z;
  Week_Number : option Z;
  Year : option Z
}.
End Daily.

(** [np.where(cond, 256, 0)] on one entry. *)
Definition np_where (cond : bool) (x y : Z) : Z := if cond then x else y.

(** A test on the [.dt] accessor; NaT satisfies none. *)
Definition dt_test (p : Timestamp -> bool) (t : option Timestamp) : bool :=
  match t with
  | Some ts => p ts
  | None => false
  end.

Definition derive_row (r : Parsed.row) : Daily.row :=
  let t := Parsed.Time r in
  Daily.mk t (Parsed.in_ r) (Parsed.out r)
    (np_where (dt_test (fun ts => String.eqb (day_name ts) "Monday") t) 256 0)
    (np_where (dt_test is_month_start t) 256 0)
    (np_where (dt_test is_year_start t) 256 0)
    (option_map isocalendar_week t)
    (option_map year t).

Definition derive_time_features (df : list Parsed.row) : list Daily.row :=
  map derive_row df.

(** *** From the ingested frame to the parsed table *)

(** A numeric column read by the arithmetic of the later cells: a text
    in [in] or [out] surfaces as the TypeError that averaging the column
    raises. *)
Definition numeric (c : cell) : result (option Q) :=
  match c with
  | CNum q => Ok (Some q)
  | CNaN => Ok None
  | CStr _ => Err TypeError
  end.

(** A conversion applied to a whole column: the first entry it rejects
    fails the conversion. *)
Fixpoint convert {A : Type} (f : cell -> result A) (column : list cell)
  : result (list A) :=
  match column with
  | [] => Ok []
  | c :: column' =>
      a <- f c ;;
      l <- convert f column' ;;
      Ok (a :: l)
  end.

Fixpoint zip3 {A B C D : Type} (f : A -> B -> C -> D)
    (l : list A) (l' : list B) (l'' : list C) : list D :=
  match l, l', l'' with
  | a :: t, b :: t', c :: t'' => f a b c :: zip3 f t t' t''
  | _, _, _ => []
  end.

(** [pd.to_datetime(df['Time'], format='mixed')] on the whole [Time]
    column, the parser of one entry being [to_datetime]; the numeric
    columns are read after it. *)
Definition parse_rows (to_datetime : cell -> result (option Timestamp))
    (l : list (list cell)) : result (list Parsed.row) :=
  times <- convert to_datetime (map (fun r => nth 0 r CNaN) l) ;;
  ins <- convert numeric (map (fun r => nth 1 r CNaN) l) ;;
  outs <- convert numeric (map (fun r => nth 2 r CNaN) l) ;;
  Ok (zip3 Parsed.mk times ins outs).

Fixpoint zip_with {A B C : Type} (f : A -> B -> C) (l : list A) (l' : list B)
  : list C :=
  match l, l' with
  | a :: t, b :: t' => f a b :: zip_with f t t'
  | _, _ => []
  end.

(* ================================================================= *)
(** ** Float64 arithmetic *)

(** A float64 value: a finite number, an infinity or NaN.  The finite
    numbers of the format are the rationals [m * 2^e] with [|m| < 2^53]
    and [-1074 <= e <= 971]; a zero carries no sign here. *)
Inductive float : Type :=
| Fin (q : Q)
| PInf
| NInf
| NaN.

(** The integer nearest to [n / d], a tie going to the even one
    ([0 <= n], [0 < d]). *)
Definition round_div (n d : Z) : Z :=
  let q := n / d in
  let r := n mod d in
  match 2 * r ?= d with
  | Lt => q
  | Gt => q + 1
  | Eq => if Z.even q then q else q + 1
  end.

(** The exponent [e] with [2^e <= n / d < 2^(e+1)] ([0 < n], [0 < d]). *)
Definition ilog2 (n d : Z) : Z :=
  let e := Z.log2 n - Z.log2 d in
  let below := if 0 <=? e then n <? d * 2 ^ e else n * 2 ^ (- e) <? d in
  if below then e - 1 else e.

(** The multiple of [2^ex] nearest to [n / d], where [2^ex] is the
    spacing of the float64 numbers around [n / d]: 53 significant bits,
    and no spacing finer than [2^-1074]. *)
Definition round_pos (n d : Z) : Q :=
  let ex := Z.max (ilog2 n d - 52) (-1074) in
  if 0 <=? ex then inject_Z (round_div n (d * 2 ^ ex) * 2 ^ ex)
  else Qred (Qmake (round_div (n * 2 ^ (- ex)) d) (Z.to_pos (2 ^ (- ex)))).

(** Rounding to float64: the nearest number of the format, a tie going
    to the even significand; a result of magnitude [2^1024] or more is an
    infinity. *)
Definition round64 (q : Q) : float :=
  let q := Qred q in
  let n := Qnum q in
  let d := Zpos (Qden q) in
  if n =? 0 then Fin 0
  else
    let r := round_pos (Z.abs n) d in
    if Qle_bool (inject_Z (2 ^ 1024)) r then (if 0 <? n then PInf else NInf)
    else Fin (if 0 <? n then r else Qred (- r)).

(** The float64 value of an entry of a numeric column, and of a
    count. *)
Definition to_float64 (q : Q) : float := round64 q.

Definition float_of_nat (n : nat) : float := to_float64 (inject_Z (Z.of_nat n)).

Definition is_nan (a : float) : bool :=
  match a with
  | NaN => true
  | _ => false
  end.

Definition is_inf (a : float) : bool :=
  match a with
  | PInf | NInf => true
  | _ => false
  end.

Definition fneg (a : float) : float :=
  match a with
  | Fin q => Fin (- q)
  | PInf => NInf
  | NInf => PInf
  | NaN => NaN
  end.

Definition fabs (a : float) : float :=
  match a with
  | Fin q => Fin (Qabs q)
  | PInf | NInf => PInf
  | NaN => NaN
  end.

(** [a + b] *)
Definition fadd (a b : float) : float :=
  match a, b with
  | NaN, _ | _, NaN => NaN
  | Fin x, Fin y => round64 (x + y)
  | PInf, NInf | NInf, PInf => NaN
  | PInf, _ | _, PInf => PInf
  | NInf, _ | _, NInf => NInf
  end.

(** [a - b] *)
Definition fsub (a b : float) : float := fadd a (fneg b).

(** Product of a finite [x] with an infinity of sign [inf]. *)
Definition mul_inf (x : Q) (inf : float) : float :=
  if Qeq_bool x 0 then NaN
  else if Qle_bool 0 x then inf else fneg inf.

(** [a * b] *)
Definition fmul (a b : float) : float :=
  match a, b with
  | NaN, _ | _, NaN => NaN
  | Fin x, Fin y => round64 (x * y)
  | Fin x, inf => mul_inf x inf
  | inf, Fin y => mul_inf y inf
  | PInf, PInf | NInf, NInf => PInf
  | PInf, NInf | NInf, PInf => NInf
  end.

(** [a / b] on numpy values: a zero divisor gives an infinity or NaN,
    not an exception. *)
Definition fdiv (a b : float) : float :=
  match a, b with
  | NaN, _ | _, NaN => NaN
  | Fin x, Fin y =>
      if Qeq_bool y 0 then
        if Qeq_bool x 0 then NaN
        else if Qle_bool 0 x then PInf else NInf
      else round64 (x / y)
  | Fin _, _ => Fin 0
  | inf, Fin y => if Qle_bool 0 y then inf else fneg inf
  | _, _ => NaN
  end.

(** [a < b]; a comparison with NaN is false. *)
Definition flt (a b : float) : bool :=
  match a, b with
  | NaN, _ | _, NaN => false
  | Fin x, Fin y => negb (Qle_bool y x)
  | NInf, NInf => false
  | NInf, _ => true
  | _, NInf => false
  | PInf, _ => false
  | Fin _, PInf => true
  end.

(** [a == b]; NaN is equal to nothing. *)
Definition feqb (a b : float) : bool :=
  match a, b with
  | Fin x, Fin y => Qeq_bool x y
  | PInf, PInf | NInf, NInf => true
  | _, _ => false
  end.

(* ================================================================= *)
(** ** Weekly aggregation *)

Module Weekly.
Record row : Type := mk {
  Year : Z;
  Week_Number : Z;
  in_mean : float;
  out_mean : float;
  Year_Start : Z;
  Month_Start : Z
}.
End Weekly.

(** A group label: the pair ([Year], [Week_Number]). *)
Definition key : Type := (Z * Z)%type.

(** The label of a daily row; a row with a missing label belongs to no
    group ([dropna=True]). *)
Definition group_key (r : Daily.row) : option key :=
  match Daily.Year r, Daily.Week_Number r with
  | Some y, Some w => Some (y, w)
  | _, _ => None
  end.

Definition key_compare (a b : key) : comparison :=
  match fst a ?= fst b with
  | Eq => snd a ?= snd b
  | c => c
  end.

(** What the pass of ['mean'] keeps for one column of one group: the
    number of values met, their running sum and the running compensation
    of the rounding errors of that sum (Kahan summation). *)
Record column_acc : Type := mkCol {
  nobs : nat;
  sumx : float;
  compensation : float
}.

Definition col_zero : column_acc := mkCol 0 (Fin 0) (Fin 0).

(** One entry of the column: a missing entry is skipped. *)
Definition col_add (a : column_acc) (v : option Q) : column_acc :=
  match v with
  | None => a
  | Some q =>
      let val := to_float64 q in
      let y := fsub val (compensation a) in
      let t := fadd (sumx a) y in
      let c := fsub (fsub t (sumx a)) y in
      mkCol (S (nobs a)) t (if is_nan c then Fin 0 else c)
  end.

(** What one pass over the table keeps for each group: the accumulators
    of [in] and [out], and the running maxima of the two flags. *)
Record group_acc : Type := mkAcc {
  acc_in : column_acc;
  acc_out : column_acc;
  max_year_start : Z;
  max_month_start : Z
}.

Definition acc_init (r : Daily.row) : group_acc :=
  mkAcc (col_add col_zero (Daily.in_ r)) (col_add col_zero (Daily.out r))
        (Daily.Year_Start r) (Daily.Month_Start r).

Definition acc_add (a : group_acc) (r : Daily.row) : group_acc :=
  mkAcc (col_add (acc_in a) (Daily.in_ r)) (col_add (acc_out a) (Daily.out r))
        (Z.max (max_year_start a) (Daily.Year_Start r))
        (Z.max (max_month_start a) (Daily.Month_Start r)).

(** The groups are kept in ascending order of their labels
    ([sort=True]). *)
Fixpoint upsert (k : key) (r : Daily.row) (groups : list (key * group_acc))
  : list (key * group_acc) :=
  match groups with
  | [] => [(k, acc_init r)]
  | (k', a) :: rest =>
      match key_compare k k' with
      | Lt => (k, acc_init r) :: groups
      | Eq => (k', acc_add a r) :: rest
      | Gt => (k', a) :: upsert k r rest
      end
  end.

(** One turn of the pass over the table. *)
Definition groupby_step (groups : list (key * group_acc)) (r : Daily.row)
  : list (key * group_acc) :=
  match group_key r with
  | Some k => upsert k r groups
  | None => groups
  end.

(** [df.groupby(['Year', 'Week_Number'])] *)
Definition groupby (df : list Daily.row) : list (key * group_acc) :=
  fold_left groupby_step df [].

(** ['mean']: the sum over the number of values, NaN when the group has
    no value. *)
Definition mean_of (a : column_acc) : float :=
  match nobs a with
  | O => NaN
  | S _ => fdiv (sumx a) (float_of_nat (nobs a))
  end.

(** [.agg(in_mean=('in','mean'), out_mean=('out','mean'),
          Year_Start=('Year_Start','max'), Month_Start=('Month_Start','max'))]
    followed by [.reset_index()], for one group. *)
Definition agg (g : key * group_acc) : Weekly.row :=
  let '(k, a) := g in
  Weekly.mk (fst k) (snd k)
    (mean_of (acc_in a)) (mean_of (acc_out a))
    (max_year_start a) (max_month_start a).

Definition aggregate_weekly (df : list Daily.row) : list Weekly.row :=
  map agg (groupby df).

(* ================================================================= *)
(** ** Proportional scaling *)

(** The values of a daily column that are present. *)
Fixpoint present (s : list (option Q)) : list Q :=
  match s with
  | [] => []
  | Some x :: s' => x :: present s'
  | None :: s' => present s'
  end.

Definition Qmax2 (a b : Q) : Q := if Qle_bool a b then b else a.

(** [Series.max()]: NaN entries are skipped, a series without any value
    gives NaN. *)
Definition series_max (s : list (option Q)) : option Q :=
  match present s with
  | [] => None
  | x :: l => Some (fold_left Qmax2 l x)
  end.

(** [a / b] on the two maxima: a float64 division. *)
Definition true_divide (a b : option Q) : float :=
  match a, b with
  | Some x, Some y => fdiv (to_float64 x) (to_float64 y)
  | _, _ => NaN
  end.

(** The entries of a float64 series that are not NaN. *)
Definition dropna (s : list float) : list float :=
  filter (fun v => negb (is_nan v)) s.

Definition fmax2 (a b : float) : float := if flt a b then b else a.
Definition fmin2 (a b : float) : float := if flt b a then b else a.

(** [x.min()] and [x.max()] on a float64 series: NaN entries are
    skipped, a series without any value gives NaN. *)
Definition nanmax (s : list float) : float :=
  match dropna s with
  | [] => NaN
  | x :: l => fold_left fmax2 l x
  end.

Definition nanmin (s : list float) : float :=
  match dropna s with
  | [] => NaN
  | x :: l => fold_left fmin2 l x
  end.

(** [np.linspace(start, stop, num, endpoint=True)] for [num > 1]: the
    points [i * step + start], the last one replaced by [stop]; a step
    that has rounded to 0 is avoided by dividing first. *)
Definition linspace (start stop : float) (num : nat) : list float :=
  let div := float_of_nat (num - 1) in
  let delta := fsub stop start in
  let y := map float_of_nat (seq 0 num) in
  let step := fdiv delta div in
  let y := if feqb step (Fin 0)
           then map (fun v => fmul (fdiv v div) delta) y
           else map (fun v => fmul v step) y in
  let y := map (fun v => fadd v start) y in
  removelast y ++ [stop].

(** The literal [0.001]. *)
Definition one_per_mille : float := to_float64 (1 # 1000).

(** [_nbins_to_bins(x, nbins, right=True)]: [nbins] bins from the least
    to the greatest value, the lowest edge then moved down by 0.1% of the
    range; a series with a single value gets a range of 0.1% around
    it. *)
Definition nbins_to_bins (x : list float) (nbins : nat) : result (list float) :=
  match x with
  | [] => Err ValueError               (* "Cannot cut empty array" *)
  | _ :: _ =>
      let mn := nanmin x in
      let mx := nanmax x in
      if is_inf mn || is_inf mx then
        Err ValueError                 (* "... input data contains infinity" *)
      else if feqb mn mx then
        let mn' := fsub mn (if negb (feqb mn (Fin 0))
                            then fmul one_per_mille (fabs mn) else one_per_mille) in
        let mx' := fadd mx (if negb (feqb mx (Fin 0))
                            then fmul one_per_mille (fabs mx) else one_per_mille) in
        Ok (linspace mn' mx' (nbins + 1))
      else
        let bins := linspace mn mx (nbins + 1) in
        let adj := fmul (fsub mx mn) one_per_mille in
        Ok (match bins with
            | b0 :: bins' => fsub b0 adj :: bins'
            | [] => []
            end)
  end.

(** Two entries that [algos.unique] takes for one: the same number, the
    same infinity, or NaN twice. *)
Definition same_value (a b : float) : bool :=
  match a, b with
  | Fin x, Fin y => Qeq_bool x y
  | PInf, PInf | NInf, NInf | NaN, NaN => true
  | _, _ => false
  end.

Fixpoint has_duplicates (l : list float) : bool :=
  match l with
  | [] => false
  | x :: l' => existsb (same_value x) l' || has_duplicates l'
  end.

(** The order of numpy's sorting routines: [a < b], NaN being greater
    than everything else. *)
Definition np_lt (a b : float) : bool :=
  flt a b || (is_nan b && negb (is_nan a)).

(** The loop of the binary search for [key] in [arr] between [min_idx]
    and [max_idx]; it returns the two indices as it leaves them.  The
    interval shrinks at each turn, so [fuel] turns are enough when
    [max_idx - min_idx <= fuel]. *)
Fixpoint binsearch_loop (fuel : nat) (arr : list float) (key : float)
    (min_idx max_idx : nat) : nat * nat :=
  match fuel with
  | O => (min_idx, max_idx)
  | S fuel' =>
      if (min_idx <? max_idx)%nat then
        let mid_idx := (min_idx + (max_idx - min_idx) / 2)%nat in
        if np_lt (nth mid_idx arr NaN) key
        then binsearch_loop fuel' arr key (mid_idx + 1) max_idx
        else binsearch_loop fuel' arr key min_idx mid_idx
      else (min_idx, max_idx)
  end.

(** numpy's [binsearch] with [side='left'] over the keys in order: each
    search starts from the indices and the key that the search before it
    has left. *)
Fixpoint binsearch (arr : list float) (keys : list float) (last_key : float)
    (min_idx max_idx : nat) : list nat :=
  match keys with
  | [] => []
  | key :: keys' =>
      let arr_len := length arr in
      let '(lo, hi) :=
        if np_lt last_key key then (min_idx, arr_len)
        else (O, if (max_idx <? arr_len)%nat then (max_idx + 1)%nat else arr_len) in
      let '(lo, hi) := binsearch_loop arr_len arr key lo hi in
      lo :: binsearch arr keys' key lo hi
  end.

(** [bins.searchsorted(x, side='left')] *)
Definition searchsorted (bins : list float) (x : list float) : list nat :=
  match x with
  | [] => []
  | key :: _ => binsearch bins x key 0 (length bins)
  end.

(** [_bins_to_cuts(x, bins, right=True, labels=labels)]: an entry that
    is NaN, or that the search places before the first edge or after the
    last one, gets no label. *)
Definition bins_to_cuts (x : list float) (bins : list float) (labels : list Z)
  : result (list (option Z)) :=
  if has_duplicates bins && negb (length bins =? 2)%nat then
    Err ValueError                     (* "Bin edges must be unique" *)
  else
    let ids := searchsorted bins x in
    if negb (length labels =? length bins - 1)%nat then Err ValueError
    else
      Ok (zip_with (fun v id =>
                      if is_nan v || (id =? length bins)%nat || (id =? 0)%nat
                      then None
                      else Some (nth (id - 1) labels 0)) x ids).

(** [pd.cut(x, bins=nbins, labels=labels)] *)
Definition cut (x : list float) (nbins : nat) (labels : list Z)
  : result (list (option Z)) :=
  bins <- nbins_to_bins x nbins ;;
  bins_to_cuts x bins labels.

(** [range(a, b)] *)
Definition range (a b : Z) : list Z :=
  map (fun i => a + Z.of_nat i) (seq 0 (Z.to_nat (b - a))).

(** [.astype(float)] on one label. *)
Definition astype_float (l : option Z) : float :=
  match l with
  | Some z => to_float64 (inject_Z z)
  | None => NaN
  end.

(** [scaling_factor = out_max / in_max], both maxima read in the daily
    table [df]. *)
Definition scaling_factor (df : list Daily.row) : float :=
  let in_max := series_max (map Daily.in_ df) in
  let out_max := series_max (map Daily.out df) in
  true_divide out_max in_max.

(** [pd.cut(weekly_df['out_mean'], bins=48, labels=range(1, 49))
       .astype(float) * scaling_factor].  The two lines that would round,
    clip and store the result are commented out in the notebook. *)
Definition out_quant_scaled (out_mean : list float) (factor : float)
  : result (list float) :=
  labels <- cut out_mean 48 (range 1 49) ;;
  Ok (map (fun l => fmul (astype_float l) factor) labels).

(** The scaling cell: it reads both tables and defines two names. *)
Definition scaling_cell (df : list Daily.row) (weekly_df : list Weekly.row)
  : result (float * list float) :=
  let factor := scaling_factor df in
  scaled <- out_quant_scaled (map Weekly.out_mean weekly_df) factor ;;
  Ok (factor, scaled).

(* ================================================================= *)
(** ** Trend isolation *)

(** The weekly table with its four trend columns. *)
Module Trend.
Record row : Type := mk {
  Year : Z;
  Week_Number : Z;
  in_mean : float;
  out_mean : float;
  Year_Start : Z;
  Month_Start : Z;
  in_up : float;
  in_down : float;
  out_up : float;
  out_down : float
}.
End Trend.

(** [Series.shift()]: every value moves one row down, the first row
    gets NaN and the last value falls out. *)
Definition shift (s : list float) : list float :=
  firstn (length s) (NaN :: s).

(** [a > b] and [a < b] on one pair of entries; a comparison with NaN
    is false. *)
Definition gt (a b : float) : bool := flt b a.

Definition lt (a b : float) : bool := flt a b.

(** [s.where(cond, other)]: the entry where [cond] holds, [other]
    elsewhere. *)
Definition where_ (s : list float) (cond : list bool) (other : Q)
  : list float :=
  zip_with (fun v (c : bool) => if c then v else Fin other) s cond.

(** [weekly_df[name] = column] for the four new columns at once. *)
Fixpoint assign_trends (weekly_df : list Weekly.row)
    (iu id ou od : list float) : list Trend.row :=
  match weekly_df, iu, id, ou, od with
  | w :: weekly_df', a :: iu', b :: id', c :: ou', d :: od' =>
      Trend.mk (Weekly.Year w) (Weekly.Week_Number w)
               (Weekly.in_mean w) (Weekly.out_mean w)
               (Weekly.Year_Start w) (Weekly.Month_Start w) a b c d
      :: assign_trends weekly_df' iu' id' ou' od'
  | _, _, _, _, _ => []
  end.

Definition split_trend (weekly_df : list Weekly.row) : list Trend.row :=
  let in_mean := map Weekly.in_mean weekly_df in
  let out_mean := map Weekly.out_mean weekly_df in
  let is_in_up := zip_with gt in_mean (shift in_mean) in
  let is_in_down := zip_with lt in_mean (shift in_mean) in
  let is_out_up := zip_with gt out_mean (shift out_mean) in
  let is_out_down := zip_with lt out_mean (shift out_mean) in
  assign_trends weekly_df
    (where_ in_mean is_in_up 0) (where_ in_mean is_in_down 0)
    (where_ out_mean is_out_up 0) (where_ out_mean is_out_down 0).

(* ================================================================= *)
(** ** Finalization and export *)

Definition cell_of_int (z : Z) : cell := CNum (inject_Z z).

(** A float64 entry as a cell of the frame; an infinity stands as the
    text that [to_csv] writes for it. *)
Definition cell_of_float (v : float) : cell :=
  match v with
  | Fin q => CNum q
  | PInf => CStr "inf"
  | NInf => CStr "-inf"
  | NaN => CNaN
  end.

(** The labels of [weekly_df] when the last cell runs: the two group
    labels put back by [reset_index()], the four aggregates in the order
    of [agg]'s keywords, the four trend columns in order of assignment. *)
Definition weekly_columns : list string :=
  ["Year"; "Week_Number"; "in_mean"; "out_mean"; "Year_Start"; "Month_Start";
   "in_up"; "in_down"; "out_up"; "out_down"].

Definition weekly_cells (r : Trend.row) : list cell :=
  [cell_of_int (Trend.Year r); cell_of_int (Trend.Week_Number r);
   cell_of_float (Trend.in_mean r); cell_of_float (Trend.out_mean r);
   cell_of_int (Trend.Year_Start r); cell_of_int (Trend.Month_Start r);
   cell_of_float (Trend.in_up r); cell_of_float (Trend.in_down r);
   cell_of_float (Trend.out_up r); cell_of_float (Trend.out_down r)].

(** [weekly_df] as the data frame it is. *)
Definition weekly_frame (weekly_df : list Trend.row) : DataFrame :=
  mkFrame weekly_columns (map weekly_cells weekly_df).

Fixpoint lookup (s : string) (mapping : list (string * string)) : option string :=
  match mapping with
  | [] => None
  | (a, b) :: mapping' => if String.eqb s a then Some b else lookup s mapping'
  end.

(** [df.rename(columns=mapping)] *)
Definition rename (mapping : list (string * string)) (df : DataFrame) : DataFrame :=
  mkFrame (map (fun c => match lookup c mapping with
                         | Some c' => c'
                         | None => c
                         end) (columns df))
          (rows df).

(** Every position at which [cols] carries the label [s]. *)
Fixpoint positions (s : string) (cols : list string) (from : nat) : list nat :=
  match cols with
  | [] => []
  | c :: cols' =>
      if String.eqb s c then from :: positions s cols' (S from)
      else positions s cols' (S from)
  end.

(** [df[labels]]: the columns carrying the labels, in the order of
    [labels]; a label that no column carries is a KeyError. *)
Definition getitem (labels : list string) (df : DataFrame) : result DataFrame :=
  if forallb (fun s => mem_str s (columns df)) labels then
    let idx := flat_map (fun s => positions s (columns df) 0) labels in
    Ok (mkFrame (map (fun i => nth i (columns df) EmptyString) idx)
                (map (fun r => map (fun i => nth i r CNaN) idx) (rows df)))
  else Err KeyError.

Definition string_of_nat (n : nat) : string :=
  DecimalString.NilZero.string_of_uint (Nat.to_uint n).

Definition join (fields : list string) : string := String.concat "," fields.

(** [df.to_csv(path, index=index)]: the lines written, the header line
    first.  With [index=True] every line starts with the row label.
    [repr] writes one cell. *)
Definition to_csv (repr : cell -> string) (index : bool) (df : DataFrame)
  : list string :=
  join ((if index then [EmptyString] else []) ++ columns df)
  :: map (fun ir : nat * list cell =>
            join ((if index then [string_of_nat (fst ir)] else [])
                  ++ map repr (snd ir)))
         (combine (seq 0 (nrows df)) (rows df)).

Definition columns_to_keep : list string :=
  ["in"; "out"; "Month_Start"; "Year_Start";
   "in_up"; "in_down"; "out_up"; "out_down"].

Definition output_filename : string := "./output/Processed_traffic.csv".

(** A file as the run leaves it on disk. *)
Record written_file : Type := mkFile {
  path : string;
  lines : list string
}.

(** The last cell: [final_df] and the file it is saved to. *)
Definition finalize_and_write (repr : cell -> string) (weekly_df : DataFrame)
  : result (DataFrame * written_file) :=
  let final_df := rename [("in_mean", "in"); ("out_mean", "out")] weekly_df in
  final_df <- getitem columns_to_keep final_df ;;
  Ok (final_df, mkFile output_filename (to_csv repr false final_df)).

(* ================================================================= *)
(** ** The notebook, run from top to bottom *)

Definition run (to_datetime : cell -> result (option Timestamp))
    (repr : cell -> string) (files : list csv_file) : result written_file :=
  df <- load_and_clean files ;;
  df <- parse_rows to_datetime (rows df) ;;
  let df := derive_time_features df in
  let weekly_df := aggregate_weekly df in
  _ <- scaling_cell df weekly_df ;;
  let weekly_df := split_trend weekly_df in
  out <- finalize_and_write repr (weekly_frame weekly_df) ;;
  Ok (snd out).

(* ================================================================= *)

(* ================================================================= *)
(** ** What the specification asks for, in its own words *)

(** Two example exports with the same header and one record each. *)
Definition export_header : list string := ["Time"; "Traffic In"; "Traffic Out"].

Definition export_a : csv_file :=
  mkCsv export_header [[CStr "2024-01-01"; CNum 5; CNum 7]].

Definition export_b : csv_file :=
  mkCsv export_header [[CStr "2024-01-02"; CNum 6; CNum 8]].

(** An export whose first record has a small, nonzero third field and
    whose second record has a zero there. *)
Definition export_c : csv_file :=
  mkCsv export_header
        [[CStr "2024-01-03"; CNum 6; CNum (1 # 10000)];
         [CStr "2024-01-04"; CNum 6; CNum 0];
         [CStr "2024-01-05"; CNum 6; CNum 9]].

(** Header de-duplication as the specification words it: two files with
    the same header and [N] and [M] records give [N + M] rows. *)
Definition header_deduplication (a b : csv_file) : Prop :=
  first_line a = first_line b ->
  exists df, load_and_clean [a; b] = Ok df /\
             nrows df = (length (data_lines a) + length (data_lines b))%nat.

(** Zero-row filtering as the specification words it, for one record
    [r] of a file with more than two columns among [files]: it is absent
    when its third field is 0 and present otherwise.  The file has three
    columns here, so a record is laid out in the table as it is. *)
Definition zero_row_filtering (files : list csv_file) (r : list cell) : Prop :=
  exists df, load_and_clean files = Ok df /\
             (ne_zero (iloc_col2 r) = false -> ~ In r (rows df)) /\
             (ne_zero (iloc_col2 r) = true -> In r (rows df)).

(** The degenerate success the specification describes for an empty
    input directory. *)
Definition degenerate_success (files : list csv_file) : Prop :=
  exists df, load_and_clean files = Ok df /\ rows df = [].

(** [round()] of pandas: to the nearest integer, a tie to the even one. *)
Definition round_half_even (q : Q) : Z :=
  let f := Qfloor q in
  let r := (q - inject_Z f)%Q in
  if Qeq_bool r (1 # 2) then (if Z.even f then f else f + 1)
  else if Qle_bool r (1 # 2) then f else f + 1.

(** The scaled quantized series as the specification words it:
    quantize, multiply, round, clip at 1. *)
Definition spec_scaled_quantized (out_mean : list float) (factor : Q)
  : result (list (option Z)) :=
  labels <- cut out_mean 48 (range 1 49) ;;
  Ok (map (option_map (fun l =>
             Z.max 1 (round_half_even (inject_Z l * factor)))) labels).

(** Equality of two float64 values of the model. *)
Definition float_eq (a b : float) : Prop :=
  match a, b with
  | Fin x, Fin y => (x == y)%Q
  | PInf, PInf | NInf, NInf | NaN, NaN => True
  | _, _ => False
  end.

(** [a] is strictly less than [b]: the order of the numbers, with the
    two infinities at its ends; NaN is neither less nor greater than
    anything. *)
Definition float_lt (a b : float) : Prop :=
  match a, b with
  | Fin x, Fin y => (x < y)%Q
  | NInf, Fin _ | NInf, PInf | Fin _, PInf => True
  | _, _ => False
  end.

(** The relation between a week's value [v], the previous week's value
    [p] and the two trend entries [up] and [down] of the week: the
    value goes to [up] when it has risen and to [down] when it has
    fallen, and an entry is 0 otherwise; so both are 0 when the two
    values are equal or one of them is missing. *)
Definition trend_of (v p up down : float) : Prop :=
  (float_lt p v -> up = v /\ down = Fin 0) /\
  (float_lt v p -> up = Fin 0 /\ down = v) /\
  (~ float_lt p v -> ~ float_lt v p -> up = Fin 0 /\ down = Fin 0).

(** The rows of the enriched table whose [Year] is [fst k] and whose
    [Week_Number] is [snd k]. *)
Definition group (k : key) (df : list Daily.row) : list Daily.row :=
  filter (fun r => match Daily.Year r, Daily.Week_Number r with
                   | Some y, Some w => (y =? fst k) && (w =? snd k)
                   | _, _ => false
                   end) df.

(** One step of the compensated summation of float64 values: the
    running sum [s] and the running compensation [c] of its rounding
    errors take in the value [v]. *)
Definition kahan_step (sc : float * float) (v : float) : float * float :=
  let y := fsub v (snd sc) in
  let t := fadd (fst sc) y in
  let c := fsub (fsub t (fst sc)) y in
  (t, if is_nan c then Fin 0 else c).

(** The float64 mean of the numbers [values], taken in order: their
    compensated sum over their count; NaN when there is none. *)
Definition float64_mean (values : list Q) : float :=
  match values with
  | [] => NaN
  | _ :: _ =>
      fdiv (fst (fold_left kahan_step (map to_float64 values) (Fin 0, Fin 0)))
           (to_float64 (inject_Z (Z.of_nat (length values))))
  end.

(** The mean of the values present in a column of a group. *)
Definition mean_is (m : float) (values : list (option Q)) : Prop :=
  m = float64_mean (present values).

(** [m] is the greatest element of [l]. *)
Definition is_max_Z (m : Z) (l : list Z) : Prop :=
  In m l /\ Forall (fun x => x <= m) l.

Definition is_max_Q (m : Q) (l : list Q) : Prop :=
  (exists x, In x l /\ (x == m)%Q) /\ Forall (fun x => (x <= m)%Q) l.

Definition key_lt (a b : key) : Prop := key_compare a b = Lt.

Definition weekly_key (w : Weekly.row) : key :=
  (Weekly.Year w, Weekly.Week_Number w).

(** The three flags of one enriched row, read against its date: 256
    exactly on a Monday, on the first day of a month, on the first day of
    a year; a row without a date (NaT) carries no flag. *)
Definition flags_match_date (r : Daily.row) : Prop :=
  match Daily.Time r with
  | Some t =>
      (Daily.Week_Start r = 256 /\ day_name t = "Monday" \/
       Daily.Week_Start r = 0 /\ day_name t <> "Monday") /\
      (Daily.Month_Start r = 256 /\ day t = 1 \/
       Daily.Month_Start r = 0 /\ day t <> 1) /\
      (Daily.Year_Start r = 256 /\ (month t = 1 /\ day t = 1) \/
       Daily.Year_Start r = 0 /\ ~ (month t = 1 /\ day t = 1))
  | None =>
      Daily.Week_Start r = 0 /\ Daily.Month_Start r = 0 /\ Daily.Year_Start r = 0
  end.

(** Three weeks whose [out_mean] runs 5, 5, 3 and whose [in_mean] runs
    1, 2, 2. *)
Definition three_weeks : list Weekly.row :=
  [Weekly.mk 2024 1 (Fin 1) (Fin 5) 256 256;
   Weekly.mk 2024 2 (Fin 2) (Fin 5) 0 0;
   Weekly.mk 2024 3 (Fin 2) (Fin 3) 0 0].

(** The group that a pass over the table has accumulated under the
    label [k], if any. *)
Fixpoint find_group (k : key) (groups : list (key * group_acc)) : option group_acc :=
  match groups with
  | [] => None
  | (k', a) :: rest =>
      match key_compare k k' with
      | Eq => Some a
      | _ => find_group k rest
      end
  end.

(** The accumulators after the rows [g] of one group, taken in order. *)
Definition acc_of (g : list Daily.row) : option group_acc :=
  match g with
  | [] => None
  | r :: g' => Some (fold_left acc_add g' (acc_init r))
  end.

Definition key_eq_dec (a b : key) : {a = b} + {a <> b}.
Proof. decide equality; apply Z.eq_dec. Defined.

(** The (Year, Week_Number) labels of the rows of the enriched table
    that have both, and the distinct ones among them. *)
Fixpoint labels_of (df : list Daily.row) : list key :=
  match df with
  | [] => []
  | r :: df' =>
      match Daily.Year r, Daily.Week_Number r with
      | Some y, Some w => (y, w) :: labels_of df'
      | _, _ => labels_of df'
      end
  end.

Definition distinct_labels (df : list Daily.row) : list key :=
  nodup key_eq_dec (labels_of df).

(** A flag aggregated over a group: 256 when a day of the group carries
    it, 0 when none does. *)
Definition flag_of_group (weekly : Z) (daily : list Z) : Prop :=
  weekly = 256 /\ In 256 daily \/ weekly = 0 /\ Forall (fun x => x = 0) daily.

(** One row of the weekly table, read against the enriched daily table
    [df] it was aggregated from. *)
Definition aggregates_group (df : list Daily.row) (row : Weekly.row) : Prop :=
  let g := group (weekly_key row) df in
  g <> [] /\
  mean_is (Weekly.in_mean row) (map Daily.in_ g) /\
  mean_is (Weekly.out_mean row) (map Daily.out g) /\
  is_max_Z (Weekly.Year_Start row) (map Daily.Year_Start g) /\
  is_max_Z (Weekly.Month_Start row) (map Daily.Month_Start g).

(** Two days whose greatest [in] is 100 and whose greatest [out] is
    1000, on different days. *)
Definition two_days : list Daily.row :=
  derive_time_features
    [Parsed.mk (Some (mkDate 2024 1 1)) (Some 100%Q) (Some 5%Q);
     Parsed.mk (Some (mkDate 2024 1 8)) (Some 7%Q) (Some 1000%Q)].

(** Two days whose greatest [in] is 3 and whose greatest [out] is 1. *)
Definition thirds : list Daily.row :=
  derive_time_features
    [Parsed.mk (Some (mkDate 2024 1 1)) (Some 3%Q) (Some 1%Q);
     Parsed.mk (Some (mkDate 2024 1 2)) (Some 2%Q) (Some (1 # 2)%Q)].

(** The float64 number that the text 0.1 reads as. *)
Definition tenth : Q := 3602879701896397 # 36028797018963968.

(** Three days of the week 14 of 2024, the first of which opens a
    month, with [in] values 10, 20, 30 and [out] values 0.1; the first
    day of 2024, whose [out] is missing; and a row without a date. *)
Definition april_days : list Parsed.row :=
  [Parsed.mk (Some (mkDate 2024 4 1)) (Some 10%Q) (Some tenth);
   Parsed.mk (Some (mkDate 2024 4 2)) (Some 20%Q) (Some tenth);
   Parsed.mk (Some (mkDate 2024 4 3)) (Some 30%Q) (Some tenth);
   Parsed.mk (Some (mkDate 2024 1 1)) (Some 7%Q) None;
   Parsed.mk None (Some 1000%Q) (Some 1000%Q)].

(** Three weekly values so large that the 0.1% by which [pd.cut] lowers
    its first edge is lost to rounding. *)
Definition far_series : list float :=
  [Fin 1000000000000000; Fin 1000000000000001; Fin 1000000000000048].

(** A number of the float64 format. *)
Definition is_float64 (q : Q) : Prop := float_eq (to_float64 q) (Fin q).

(** The label [l] times the factor, in float64. *)
Definition scaled_label (l : Z) (factor : float) : float :=
  match factor with
  | Fin q => round64 (inject_Z l * q)
  | PInf => if 0 <? l then PInf else if l <? 0 then NInf else NaN
  | NInf => if 0 <? l then NInf else if l <? 0 then PInf else NaN
  | NaN => NaN
  end.

(** Entry [s] of the scaled quantized series against entry [v] of the
    weekly series, the edges of the bins being [bins].  A value that is
    missing, or that does not lie above the lowest edge, or that lies
    above the highest edge, gives NaN.  Any other value gives the label
    [l] of a bin, 1 to 48, whose lower edge lies below the value and
    whose upper edge does not, times the factor, as it is. *)
Definition scaled_entry (bins : list float) (factor : float)
    (v : option float) (s : option float) : Prop :=
  match v with
  | Some x =>
      (s = Some NaN /\
       (x = NaN \/ ~ float_lt (nth 0 bins NaN) x \/ float_lt (nth 48 bins NaN) x))
      \/
      (exists l : nat,
          (1 <= l <= 48)%nat /\ x <> NaN /\
          float_lt (nth (l - 1) bins NaN) x /\ ~ float_lt (nth l bins NaN) x /\
          s = Some (scaled_label (Z.of_nat l) factor))
  | None => s = None
  end.

(** The scaled quantized series as the specification states it: the
    series the notebook computes is the rounded and clipped one. *)
Definition scaled_quantized_as_specified (out_mean : list float) (factor : Q)
  : Prop :=
  exists scaled labels,
    out_quant_scaled out_mean (Fin factor) = Ok scaled /\
    spec_scaled_quantized out_mean factor = Ok labels /\
    Forall2 float_eq scaled (map astype_float labels).

(** Two Mondays, a week apart: [in] is 2 then 4, [out] is 1 then 2. *)
Definition two_mondays : list Daily.row :=
  derive_time_features
    [Parsed.mk (Some (mkDate 2024 1 1)) (Some 2%Q) (Some 1%Q);
     Parsed.mk (Some (mkDate 2024 1 8)) (Some 4%Q) (Some 2%Q)].

(** The eight cells that the last cell keeps of one weekly row. *)
Definition final_cells (r : Trend.row) : list cell :=
  [cell_of_float (Trend.in_mean r); cell_of_float (Trend.out_mean r);
   cell_of_int (Trend.Month_Start r); cell_of_int (Trend.Year_Start r);
   cell_of_float (Trend.in_up r); cell_of_float (Trend.in_down r);
   cell_of_float (Trend.out_up r); cell_of_float (Trend.out_down r)].

(** After the rows [seen], the groups are in ascending order of their
    labels and each holds the accumulators of its rows. *)
Definition groups_of (seen : list Daily.row) (groups : list (key * group_acc))
  : Prop :=
  StronglySorted key_lt (map fst groups) /\
  forall k, find_group k groups = acc_of (group k seen).

(** The rows that [pd.read_csv] makes of the records of a file. *)
Definition records (file : csv_file) : list (list cell) :=
  map (record_cells file) (data_lines file).

(** The rows that one turn of the loop keeps of a file: all records of
    the first file, all but the first record of a later file, and of
    these, when the file has more than two columns, those whose third
    cell is not 0. *)
Definition kept_rows (first : bool) (file : csv_file) : list (list cell) :=
  let rs := if first then records file else tl (records file) in
  if (2 <? length (first_line file))%nat
  then filter (fun r => ne_zero (iloc_col2 r)) rs else rs.

(** The index [id] brackets [key] in [arr]: the entry before it is
    below the key, the entry at it is not. *)
Definition brackets (arr : list float) (key : float) (id : nat) : Prop :=
  (id <= length arr)%nat /\
  (id = O \/ np_lt (nth (id - 1) arr NaN) key = true) /\
  (id = length arr \/ np_lt (nth id arr NaN) key = false).

(** What the accumulators of one column hold after the entries
    [values], taken in order. *)
Definition col_of (values : list (option Q)) : column_acc :=
  fold_left col_add values col_zero.

(** What the accumulators of a group hold. *)
Definition acc_holds (g : list Daily.row) (a : group_acc) : Prop :=
  acc_in a = col_of (map Daily.in_ g) /\
  acc_out a = col_of (map Daily.out g) /\
  is_max_Z (max_year_start a) (map Daily.Year_Start g) /\
  is_max_Z (max_month_start a) (map Daily.Month_Start g).

(* ================================================================= *)
(** ** Notions used by the further properties *)

(** A file that [pd.read_csv] accepts. *)
Definition readable (file : csv_file) : bool :=
  match read_csv file with
  | Ok _ => true
  | Err _ => false
  end.

(** Ascending order of the rows in column [i]. *)
Definition ascending (i : nat) (l : list (list cell)) : Prop :=
  Sorted (fun r r' => cell_leb (nth i r CNaN) (nth i r' CNaN) = true) l.

(** [_days_before_year] of Python's [datetime]: the days before
    1 January of year [y], counted from 1 January of year 1. *)
Definition days_before_year (y : Z) : Z :=
  let y := y - 1 in
  y * 365 + y / 4 - y / 100 + y / 400.

(** [date(y, m, d).toordinal()]: 1 January of year 1 is day 1. *)
Definition toordinal (y m d : Z) : Z :=
  days_before_year y + get_day_of_year y m d.

(** [date(y, m, d).weekday()]: 0 is Monday. *)
Definition weekday_of_ordinal (y m d : Z) : Z :=
  (toordinal y m d + 6) mod 7.

(** The rows of the parsed table that carry a date. *)
Definition dated (r : Parsed.row) : bool :=
  match Parsed.Time r with
  | Some _ => true
  | None => false
  end.

(** The sum of integers, and the sum of their magnitudes. *)
Definition Zsum (l : list Z) : Z := fold_right Z.add 0 l.

Definition abs_sum (l : list Z) : Z := fold_right (fun z s => Z.abs z + s) 0 l.

(** The values present in the column [in], or [out], of some daily
    rows, and the weekly mean of that column. *)
Definition column_values (out : bool) (g : list Daily.row) : list Q :=
  present (map (if out then Daily.out else Daily.in_) g).

Definition column_mean (out : bool) (w : Weekly.row) : float :=
  if out then Weekly.out_mean w else Weekly.in_mean w.

(** Three days of one week whose [in] values read 0.1, 0.1, 0.4, and the
    same three values in the order 0.1, 0.4, 0.1. *)
Definition four_tenths : Q := 3602879701896397 # 9007199254740992.

Definition tenths_a : list Daily.row :=
  derive_time_features
    [Parsed.mk (Some (mkDate 2024 4 1)) (Some tenth) None;
     Parsed.mk (Some (mkDate 2024 4 2)) (Some tenth) None;
     Parsed.mk (Some (mkDate 2024 4 3)) (Some four_tenths) None].

Definition tenths_b : list Daily.row :=
  derive_time_features
    [Parsed.mk (Some (mkDate 2024 4 1)) (Some tenth) None;
     Parsed.mk (Some (mkDate 2024 4 3)) (Some four_tenths) None;
     Parsed.mk (Some (mkDate 2024 4 2)) (Some tenth) None].

(** Two weekly rows with the same label and the same flags. *)
Definition same_labels_and_flags (w w' : Weekly.row) : Prop :=
  Weekly.Year w = Weekly.Year w' /\
  Weekly.Week_Number w = Weekly.Week_Number w' /\
  Weekly.Year_Start w = Weekly.Year_Start w' /\
  Weekly.Month_Start w = Weekly.Month_Start w'.

(** The weekly row that a row of the trend table extends. *)
Definition weekly_part (r : Trend.row) : Weekly.row :=
  Weekly.mk (Trend.Year r) (Trend.Week_Number r)
            (Trend.in_mean r) (Trend.out_mean r)
            (Trend.Year_Start r) (Trend.Month_Start r).

(** The labels of a frame after [rename(columns={'in_mean': 'in',
    'out_mean': 'out'})]. *)
Definition final_labels (df : DataFrame) : list string :=
  columns (rename [("in_mean", "in"); ("out_mean", "out")] df).

(** A parser that knows three dates and rejects every other text. *)
Definition example_parser (c : cell) : result (option Timestamp) :=
  match c with
  | CStr "2024-01-01" => Ok (Some (mkDate 2024 1 1))
  | CStr "2024-01-05" => Ok (Some (mkDate 2024 1 5))
  | CStr "2024-01-18" => Ok (Some (mkDate 2024 1 18))
  | CNaN => Ok None
  | _ => Err ValueError
  end.

(** Two exports whose dates the example parser knows. *)
Definition example_files : list csv_file :=
  [export_a;
   mkCsv export_header
         [[CStr "2024-01-01"; CNum 1; CNum 1];
          [CStr "2024-01-05"; CNum 6; CNum 9];
          [CStr "2024-01-18"; CNum 3; CNum 4]]].

(* ================================================================= *)
(** * Properties *)

(** ** Ingestion *)

Lemma length_insert_row (i : nat) (r : list cell) (l : list (list cell)) :
  length (insert_row i r l) = S (length l).
Proof.
  induction l as [| r' l IH]; simpl; [reflexivity |].
  destruct (cell_leb _ _); simpl; [reflexivity | rewrite IH; reflexivity].
Qed.

Lemma length_sort_rows (i : nat) (l : list (list cell)) :
  length (sort_rows i l) = length l.
Proof.
  induction l as [| r l IH]; simpl; [reflexivity |].
  rewrite length_insert_row, IH. reflexivity.
Qed.


Lemma read_csv_rows (file : csv_file) (df : DataFrame) :
  read_csv file = Ok df ->
  columns df = first_line file /\ rows df = records file.
Proof.
  unfold read_csv, records.
  destruct (first_line file) as [| c l] eqn:E; [discriminate |].
  destruct (forallb _ (data_lines file)); [| discriminate].
  intros H. inversion H; subst df. simpl. auto.
Qed.

Lemma loop_body_rows (st : loop_state) (file : csv_file) (st' : loop_state) :
  loop_body st file = Ok st' ->
  exists df_temp,
    df_list st' = df_list st ++ [df_temp] /\
    header_flag st' = true /\
    rows df_temp = kept_rows (negb (header_flag st)) file.
Proof.
  unfold loop_body, kept_rows.
  destruct (read_csv file) as [df |] eqn:R; [| discriminate].
  destruct (read_csv_rows _ _ R) as [C Rw]. unfold bind.
  destruct (header_flag st) eqn:F; simpl.
  - unfold shape1, iloc_from_1. simpl. rewrite C, Rw.
    destruct (2 <? length (first_line file))%nat; intros H; inversion H; subst;
      simpl; eexists; repeat split; reflexivity.
  - unfold shape1. rewrite C.
    destruct (2 <? length (first_line file))%nat; intros H; inversion H; subst;
      eexists; repeat split; simpl; rewrite ?Rw; reflexivity.
Qed.

(** The size of the table that two files give: what the loop keeps of
    the first, and what it keeps of the second without its first
    record. *)
Lemma two_files_row_count (a b : csv_file) (df : DataFrame) :
  load_and_clean [a; b] = Ok df ->
  nrows df = (length (kept_rows true a) + length (kept_rows false b))%nat.
Proof.
  unfold load_and_clean. simpl loop.
  destruct (loop_body loop_init a) as [st1 |] eqn:E1; simpl; [| discriminate].
  destruct (loop_body st1 b) as [st2 |] eqn:E2; simpl; [| discriminate].
  destruct (loop_body_rows _ _ _ E1) as (d1 & L1 & F1 & R1).
  destruct (loop_body_rows _ _ _ E2) as (d2 & L2 & F2 & R2).
  rewrite F1 in R2. simpl in L1, R1, R2. rewrite L2, L1. simpl app.
  unfold concat. cbn [bind].
  set (target := union_columns [d1; d2]).
  unfold sort_values. cbn [columns rows].
  destruct (index_of "Time" target) as [i |]; [| discriminate].
  destruct (comparable _); [| discriminate].
  cbn [bind]. unfold set_columns, shape1. cbn [columns rows].
  destruct (Nat.eqb _ _); [| discriminate].
  intros H. inversion H; subst df. unfold nrows. cbn [rows].
  rewrite length_sort_rows. cbn [flat_map].
  rewrite app_nil_r, length_app, !length_map, R1, R2. reflexivity.
Qed.

Lemma filter_all {A : Type} (f : A -> bool) (l : list A) :
  Forall (fun x => f x = true) l -> filter f l = l.
Proof.
  induction 1 as [| x l Hx _ IH]; simpl; [reflexivity |].
  rewrite Hx, IH. reflexivity.
Qed.

Lemma length_tl {A : Type} (l : list A) : length (tl l) = pred (length l).
Proof. destruct l; reflexivity. Qed.

(** Two files of more than two columns in which no row has a 0 in its
    third cell: the table has the records of the first file and all but
    one of the records of the second, whatever the headers are. *)
Lemma later_file_loses_one_record (a b : csv_file) (df : DataFrame) :
  load_and_clean [a; b] = Ok df ->
  (2 < length (first_line a))%nat -> (2 < length (first_line b))%nat ->
  Forall (fun r => ne_zero (iloc_col2 r) = true) (records a) ->
  Forall (fun r => ne_zero (iloc_col2 r) = true) (records b) ->
  nrows df = (length (data_lines a) + pred (length (data_lines b)))%nat.
Proof.
  intros H La Lb Fa Fb. rewrite (two_files_row_count a b df H).
  unfold kept_rows. apply Nat.ltb_lt in La, Lb. rewrite La, Lb.
  rewrite !filter_all.
  - rewrite length_tl. unfold records. rewrite !length_map. reflexivity.
  - destruct (records b); simpl; [constructor |].
    inversion Fb; assumption.
  - exact Fa.
Qed.

(** What the filter does to the rows a turn of the loop works on: in a
    file of more than two columns no kept row has a 0 in its third cell,
    and the first file keeps every row whose third cell is not 0; a
    file of at most two columns is not filtered. *)
Lemma zero_filter_kept_rows (first : bool) (file : csv_file) :
  let n := length (first_line file) in
  ((2 < n)%nat ->
   Forall (fun r => ne_zero (iloc_col2 r) = true) (kept_rows first file) /\
   forall r, In r (records file) ->
             ne_zero (iloc_col2 r) = true -> In r (kept_rows true file)) /\
  ((n <= 2)%nat -> kept_rows true file = records file).
Proof.
  cbv zeta. unfold kept_rows. split.
  - intros L. apply Nat.ltb_lt in L. rewrite L. split.
    + apply Forall_forall. intros r Hr. apply filter_In in Hr. apply Hr.
    + intros r Hr Hz. apply filter_In. auto.
  - intros L. apply Nat.ltb_ge in L. rewrite L. reflexivity.
Qed.

Lemma load_two_exports :
  load_and_clean [export_a; export_b]
  = Ok (mkFrame ["Time"; "in"; "out"] [[CStr "2024-01-01"; CNum 5; CNum 7]]).
Proof. reflexivity. Qed.

(** C1 (header de-duplication).  The notebook announces that the loop
    keeps the header of the first file only, but [pd.read_csv] has
    already taken the header of every file, so [df_temp.iloc[1:]] removes
    the first record of the second file: two exports with the same
    header and one record each give a table of one row, not of two. *)
Theorem second_export_loses_its_first_record :
  first_line export_a = first_line export_b /\
  length (data_lines export_a) = 1%nat /\
  length (data_lines export_b) = 1%nat /\
  (exists df, load_and_clean [export_a; export_b] = Ok df /\ nrows df = 1%nat) /\
  ~ header_deduplication export_a export_b.
Proof.
  repeat split.
  - eexists. split; [apply load_two_exports | reflexivity].
  - intros H. destruct (H eq_refl) as [df [Hdf Hn]].
    rewrite load_two_exports in Hdf. inversion Hdf; subst df.
    discriminate Hn.
Qed.

(** C2 (no input file), as the specification states it: the ingestion
    of an empty list of files is not a degenerate success. *)
Lemma no_input_is_not_a_success : ~ degenerate_success [].
Proof.
  intros [df [H _]]. discriminate H.
Qed.

(** C2 (no input file), as the notebook behaves: with no file to read,
    [pd.concat] has nothing to concatenate and raises ValueError; the
    ingestion yields no table, and neither does the run. *)
Theorem no_input_raises :
  load_and_clean [] = Err ValueError /\
  forall to_datetime repr, run to_datetime repr [] = Err ValueError.
Proof.
  split; [reflexivity | intros; reflexivity].
Qed.

Lemma load_exports_a_c :
  load_and_clean [export_a; export_c]
  = Ok (mkFrame ["Time"; "in"; "out"]
                [[CStr "2024-01-01"; CNum 5; CNum 7];
                 [CStr "2024-01-05"; CNum 6; CNum 9]]).
Proof. reflexivity. Qed.

(** C7 (zero-row filtering).  In the second export the record whose
    third field is 0 is absent from the table, as the claim says, but so
    is the record before it, whose third field is 0.0001: it is the first
    record of a later file, which [df_temp.iloc[1:]] removes before the
    filter runs. *)
Theorem nonzero_first_record_is_absent :
  let r0 := [CStr "2024-01-04"; CNum 6; CNum 0] in
  let r1 := [CStr "2024-01-03"; CNum 6; CNum (1 # 10000)] in
  In r0 (data_lines export_c) /\ In r1 (data_lines export_c) /\
  (2 < length (first_line export_c))%nat /\
  zero_row_filtering [export_a; export_c] r0 /\
  ne_zero (iloc_col2 r1) = true /\
  (exists df, load_and_clean [export_a; export_c] = Ok df /\ ~ In r1 (rows df)) /\
  ~ zero_row_filtering [export_a; export_c] r1.
Proof.
  assert (Hno : forall r : list cell,
             nth 0 r CNaN <> CStr "2024-01-01" ->
             nth 0 r CNaN <> CStr "2024-01-05" ->
             ~ In r [[CStr "2024-01-01"; CNum 5; CNum 7];
                     [CStr "2024-01-05"; CNum 6; CNum 9]]).
  { intros r H1 H5 [E | [E | []]]; subst r; [apply H1 | apply H5]; reflexivity. }
  cbv zeta. repeat split.
  - simpl; auto.
  - simpl; auto.
  - simpl; lia.
  - eexists. split; [apply load_exports_a_c | split].
    + intros _. apply Hno; discriminate.
    + intros H; discriminate H.
  - eexists. split; [apply load_exports_a_c |]. apply Hno; discriminate.
  - intros [df [Hdf [_ Hin]]].
    rewrite load_exports_a_c in Hdf. inversion Hdf; subst df.
    apply (Hno [CStr "2024-01-03"; CNum 6; CNum (1 # 10000)]);
      try discriminate.
    apply Hin. reflexivity.
Qed.

(** ** Time features *)

(** Within a month the weekday advances with the day. *)
Lemma dayofweek_next_day (y m d : Z) :
  dayofweek y m (d + 1) = (dayofweek y m d + 1) mod 7.
Proof.
  unfold dayofweek. cbv zeta.
  rewrite Zplus_mod_idemp_l. f_equal. ring.
Qed.

(** The weekday is one of the seven. *)
Lemma dayofweek_range (y m d : Z) : 0 <= dayofweek y m d < 7.
Proof. unfold dayofweek. cbv zeta. apply Z.mod_pos_bound. lia. Qed.

Lemma day_name_monday (t : Timestamp) :
  day_name t = "Monday" <-> dayofweek (year t) (month t) (day t) = 0.
Proof.
  unfold day_name.
  pose proof (dayofweek_range (year t) (month t) (day t)) as H.
  remember (dayofweek (year t) (month t) (day t)) as w eqn:E. clear E.
  assert (C : w = 0 \/ w = 1 \/ w = 2 \/ w = 3 \/ w = 4 \/ w = 5 \/ w = 6) by lia.
  destruct C as [-> | [-> | [-> | [-> | [-> | [-> | ->]]]]]];
    simpl; split; intros E; try reflexivity; discriminate E.
Qed.

Lemma derive_row_flags (r : Parsed.row) : flags_match_date (derive_row r).
Proof.
  unfold flags_match_date, derive_row. simpl.
  destruct (Parsed.Time r) as [t |]; simpl; [| auto].
  unfold is_month_start, is_year_start, np_where.
  repeat split.
  - destruct (String.eqb_spec (day_name t) "Monday"); [left | right]; auto.
  - destruct (Z.eqb_spec (day t) 1); [left | right]; auto.
  - destruct (Z.eqb_spec (month t) 1), (Z.eqb_spec (day t) 1); simpl;
      [left | right | right | right]; split; auto; intros [? ?]; contradiction.
Qed.


(** The ISO week and the weekday of a few known dates: a Monday that
    opens week 1, a New Year's Day that still lies in week 52 or 53 of
    the year before, the last days of a year of 53 weeks and a late
    December day that already lies in week 1. *)
Lemma calendar_examples :
  map (fun t => (day_name t, isocalendar_week t))
      [mkDate 2024 1 1; mkDate 2023 1 1; mkDate 2021 1 1;
       mkDate 2020 12 31; mkDate 2024 12 30; mkDate 2024 2 29]
  = [("Monday", 1); ("Sunday", 52); ("Friday", 53);
     ("Thursday", 53); ("Monday", 1); ("Thursday", 9)].
Proof. reflexivity. Qed.

(** ** Weekly aggregation *)

Lemma key_compare_eq (a b : key) : key_compare a b = Eq <-> a = b.
Proof.
  destruct a as [y w], b as [y' w']. unfold key_compare. simpl.
  destruct (Z.compare_spec y y') as [E | L | G].
  - rewrite Z.compare_eq_iff. split; intros H; [subst; reflexivity |].
    inversion H. reflexivity.
  - split; intros H; [discriminate | inversion H; lia].
  - split; intros H; [discriminate | inversion H; lia].
Qed.

Lemma key_compare_lt (a b : key) :
  key_compare a b = Lt <-> fst a < fst b \/ fst a = fst b /\ snd a < snd b.
Proof.
  destruct a as [y w], b as [y' w']. unfold key_compare. simpl.
  destruct (Z.compare_spec y y') as [E | L | G].
  - rewrite Z.compare_lt_iff. split; [auto | intros [H | [_ H]]; [lia | auto]].
  - split; auto.
  - split; [discriminate | lia].
Qed.

Lemma key_compare_gt (a b : key) : key_compare a b = Gt <-> key_compare b a = Lt.
Proof.
  rewrite key_compare_lt.
  destruct a as [y w], b as [y' w']. unfold key_compare. simpl.
  destruct (Z.compare_spec y y') as [E | L | G].
  - rewrite Z.compare_gt_iff. split; [intros; right; split; auto | lia].
  - split; [discriminate | lia].
  - split; auto.
Qed.

Lemma key_lt_trans (a b c : key) : key_lt a b -> key_lt b c -> key_lt a c.
Proof. unfold key_lt. rewrite !key_compare_lt. lia. Qed.

Lemma key_lt_irrefl (a : key) : ~ key_lt a a.
Proof. unfold key_lt. rewrite key_compare_lt. lia. Qed.

Lemma key_eqb_eq (k k' : key) :
  (fst k =? fst k') && (snd k =? snd k') = true <-> k = k'.
Proof.
  destruct k, k'. simpl. rewrite andb_true_iff, !Z.eqb_eq.
  split; [intros [-> ->]; reflexivity | intros H; inversion H; auto].
Qed.

(** Strictly ascending labels are pairwise distinct. *)
Lemma sorted_keys_NoDup (l : list key) : StronglySorted key_lt l -> NoDup l.
Proof.
  induction 1 as [| k l S IH F]; constructor; auto.
  intros Hin. rewrite Forall_forall in F.
  exact (key_lt_irrefl k (F k Hin)).
Qed.

Lemma find_group_above (k : key) (groups : list (key * group_acc)) :
  Forall (key_lt k) (map fst groups) -> find_group k groups = None.
Proof.
  induction groups as [| [k' a] rest IH]; simpl; intros F; [reflexivity |].
  inversion F as [| ? ? Hk Hrest]; subst.
  unfold key_lt in Hk. rewrite Hk. auto.
Qed.

Lemma upsert_keys (k : key) (r : Daily.row) (groups : list (key * group_acc))
    (k' : key) :
  In k' (map fst (upsert k r groups)) <-> k' = k \/ In k' (map fst groups).
Proof.
  induction groups as [| [k0 a] rest IH]; simpl.
  - intuition.
  - destruct (key_compare k k0) eqn:E; simpl.
    + apply key_compare_eq in E. subst k0. intuition.
    + intuition.
    + rewrite IH. intuition.
Qed.

Lemma upsert_sorted (k : key) (r : Daily.row) (groups : list (key * group_acc)) :
  StronglySorted key_lt (map fst groups) ->
  StronglySorted key_lt (map fst (upsert k r groups)).
Proof.
  induction groups as [| [k0 a] rest IH]; simpl; intros S.
  - repeat constructor.
  - inversion S as [| ? ? S' F]; subst.
    destruct (key_compare k k0) eqn:E; simpl.
    + constructor; assumption.
    + constructor; [exact S |]. constructor; [exact E |].
      eapply Forall_impl; [| exact F].
      intros k1 H1. exact (key_lt_trans _ _ _ E H1).
    + constructor; [apply IH; exact S' |].
      apply Forall_forall. intros k1 H1.
      apply upsert_keys in H1. destruct H1 as [-> | H1].
      * apply key_compare_gt. exact E.
      * rewrite Forall_forall in F. apply F. exact H1.
Qed.

(** What [upsert] does to the group found under each label. *)
Lemma find_group_upsert (k : key) (r : Daily.row)
    (groups : list (key * group_acc)) (k' : key) :
  StronglySorted key_lt (map fst groups) ->
  find_group k' (upsert k r groups)
  = if key_eq_dec k' k then
      Some (match find_group k groups with
            | Some a => acc_add a r
            | None => acc_init r
            end)
    else find_group k' groups.
Proof.
  induction groups as [| [k0 a] rest IH]; simpl; intros S.
  - destruct (key_eq_dec k' k) as [-> | N].
    + assert (E : key_compare k k = Eq) by (apply key_compare_eq; reflexivity).
      rewrite E. reflexivity.
    + destruct (key_compare k' k) eqn:E; try reflexivity.
      apply key_compare_eq in E. contradiction.
  - inversion S as [| ? ? S' F]; subst.
    destruct (key_compare k k0) eqn:E; simpl.
    + apply key_compare_eq in E. subst k0.
      destruct (key_eq_dec k' k) as [-> | N].
      * assert (E : key_compare k k = Eq) by (apply key_compare_eq; reflexivity).
        rewrite E. reflexivity.
      * destruct (key_compare k' k) eqn:E'; try reflexivity.
        apply key_compare_eq in E'. contradiction.
    + assert (Habove : find_group k rest = None).
      { apply find_group_above. eapply Forall_impl; [| exact F].
        intros k1 H1. exact (key_lt_trans _ _ _ E H1). }
      rewrite Habove.
      destruct (key_eq_dec k' k) as [-> | N].
      * assert (E' : key_compare k k = Eq) by (apply key_compare_eq; reflexivity).
        rewrite E'. reflexivity.
      * destruct (key_compare k' k) eqn:E'; try reflexivity.
        apply key_compare_eq in E'. contradiction.
    + rewrite (IH S').
      destruct (key_eq_dec k' k) as [-> | N].
      * rewrite E. reflexivity.
      * reflexivity.
Qed.

Lemma find_group_In (k : key) (a : group_acc) (groups : list (key * group_acc)) :
  StronglySorted key_lt (map fst groups) ->
  In (k, a) groups -> find_group k groups = Some a.
Proof.
  induction groups as [| [k0 a0] rest IH]; simpl; intros S Hin; [contradiction |].
  inversion S as [| ? ? S' F]; subst.
  destruct Hin as [E | Hin].
  - inversion E; subst.
    assert (Ek : key_compare k k = Eq) by (apply key_compare_eq; reflexivity).
    rewrite Ek. reflexivity.
  - assert (L : key_lt k0 k).
    { rewrite Forall_forall in F. apply F.
      apply in_map_iff. exists (k, a). auto. }
    apply key_compare_gt in L. rewrite L. apply IH; assumption.
Qed.

Lemma find_group_Some (k : key) (a : group_acc) (groups : list (key * group_acc)) :
  find_group k groups = Some a -> In (k, a) groups.
Proof.
  induction groups as [| [k0 a0] rest IH]; simpl; intros H; [discriminate |].
  destruct (key_compare k k0) eqn:E; auto.
  apply key_compare_eq in E. inversion H; subst. auto.
Qed.


Lemma group_key_fields (r : Daily.row) (k : key) :
  group_key r = Some k <->
  Daily.Year r = Some (fst k) /\ Daily.Week_Number r = Some (snd k).
Proof.
  unfold group_key. destruct k as [y w]. simpl.
  destruct (Daily.Year r) as [y' |], (Daily.Week_Number r) as [w' |];
    (split; [intros H; inversion H; auto
            | intros [H1 H2]; try discriminate;
              inversion H1; inversion H2; reflexivity]).
Qed.

Lemma group_app (k : key) (l l' : list Daily.row) :
  group k (l ++ l') = group k l ++ group k l'.
Proof. apply filter_app. Qed.

Lemma group_one (k : key) (r : Daily.row) :
  group k [r] = match group_key r with
                | Some k' => if key_eq_dec k k' then [r] else []
                | None => []
                end.
Proof.
  unfold group, group_key. simpl.
  destruct (Daily.Year r) as [y |], (Daily.Week_Number r) as [w |];
    try reflexivity.
  destruct (key_eq_dec k (y, w)) as [-> | N].
  - simpl. rewrite !Z.eqb_refl. reflexivity.
  - destruct ((y =? fst k) && (w =? snd k)) eqn:E; [| reflexivity].
    apply andb_true_iff in E. destruct E as [E1 E2].
    apply Z.eqb_eq in E1, E2. destruct k. simpl in *. subst.
    contradiction N. reflexivity.
Qed.

Lemma acc_of_snoc (g : list Daily.row) (r : Daily.row) :
  acc_of (g ++ [r]) = Some (match acc_of g with
                            | Some a => acc_add a r
                            | None => acc_init r
                            end).
Proof.
  destruct g as [| r0 g]; simpl; [reflexivity |].
  rewrite fold_left_app. reflexivity.
Qed.

Lemma groupby_step_inv (seen : list Daily.row) (groups : list (key * group_acc))
    (r : Daily.row) :
  groups_of seen groups -> groups_of (seen ++ [r]) (groupby_step groups r).
Proof.
  intros [S F]. unfold groupby_step. split.
  - destruct (group_key r); [apply upsert_sorted |]; exact S.
  - intros k'. rewrite group_app, group_one.
    destruct (group_key r) as [k |].
    + rewrite (find_group_upsert _ _ _ _ S).
      destruct (key_eq_dec k' k) as [-> | N].
      * rewrite acc_of_snoc, F. reflexivity.
      * rewrite app_nil_r. apply F.
    + rewrite app_nil_r. apply F.
Qed.

Lemma groupby_fold_inv (df seen : list Daily.row)
    (groups : list (key * group_acc)) :
  groups_of seen groups ->
  groups_of (seen ++ df) (fold_left groupby_step df groups).
Proof.
  revert seen groups. induction df as [| r df IH]; intros seen groups H; simpl.
  - rewrite app_nil_r. exact H.
  - replace (seen ++ r :: df) with ((seen ++ [r]) ++ df)
      by (rewrite <- app_assoc; reflexivity).
    apply IH. apply groupby_step_inv. exact H.
Qed.

Lemma groupby_groups_of (df : list Daily.row) : groups_of df (groupby df).
Proof.
  apply (groupby_fold_inv df [] []). split; [constructor | reflexivity].
Qed.

Lemma is_max_Z_one (x : Z) : is_max_Z x [x].
Proof. split; [left; reflexivity | repeat constructor; lia]. Qed.

Lemma is_max_Z_snoc (m x : Z) (l : list Z) :
  is_max_Z m l -> is_max_Z (Z.max m x) (l ++ [x]).
Proof.
  intros [Hin Hle]. split.
  - apply in_or_app. destruct (Z.max_spec m x) as [[_ ->] | [_ ->]].
    + right. left. reflexivity.
    + left. exact Hin.
  - apply Forall_app. split.
    + eapply Forall_impl; [| exact Hle]. intros; simpl in *. lia.
    + repeat constructor. lia.
Qed.

Lemma col_of_snoc (values : list (option Q)) (v : option Q) :
  col_of (values ++ [v]) = col_add (col_of values) v.
Proof. unfold col_of. rewrite fold_left_app. reflexivity. Qed.

Lemma acc_of_holds (g : list Daily.row) (a : group_acc) :
  acc_of g = Some a -> acc_holds g a.
Proof.
  revert a. induction g as [| r g IH] using rev_ind; intros a H.
  - discriminate H.
  - rewrite acc_of_snoc in H. inversion H as [Ha]. clear H.
    unfold acc_holds. rewrite !map_app. simpl.
    destruct (acc_of g) as [a' |] eqn:E.
    + destruct (IH a' eq_refl) as (Hi & Ho & Hy & Hm).
      simpl. rewrite !col_of_snoc, Hi, Ho. split; [| split; [| split]].
      * reflexivity.
      * reflexivity.
      * apply is_max_Z_snoc; assumption.
      * apply is_max_Z_snoc; assumption.
    + destruct g as [| r0 g]; [| discriminate E].
      simpl. split; [| split; [| split]].
      * reflexivity.
      * reflexivity.
      * apply is_max_Z_one.
      * apply is_max_Z_one.
Qed.

(** The pass over one column, entry by entry, against the compensated
    sum of the values that are present. *)
Lemma fold_col_add (values : list (option Q)) (a : column_acc) :
  let sc := fold_left kahan_step (map to_float64 (present values))
                      (sumx a, compensation a) in
  fold_left col_add values a
  = mkCol (nobs a + length (present values)) (fst sc) (snd sc).
Proof.
  revert a. induction values as [| [q |] values IH]; intros a; cbv zeta.
  - simpl. rewrite Nat.add_0_r. destruct a; reflexivity.
  - simpl. rewrite IH. cbv zeta. simpl. unfold kahan_step at 2 4. simpl.
    f_equal. lia.
  - simpl. apply IH.
Qed.

Lemma mean_of_is (values : list (option Q)) :
  mean_is (mean_of (col_of values)) values.
Proof.
  unfold mean_is, col_of. rewrite fold_col_add. cbv zeta. simpl.
  unfold mean_of, float64_mean. simpl.
  destruct (present values) as [| x l]; reflexivity.
Qed.

(** Every row of the weekly table, read against the daily table. *)
Lemma aggregate_weekly_rows (df : list Daily.row) :
  Forall (aggregates_group df) (aggregate_weekly df).
Proof.
  destruct (groupby_groups_of df) as [S F].
  apply Forall_forall. intros row Hrow.
  unfold aggregate_weekly in Hrow. apply in_map_iff in Hrow.
  destruct Hrow as [[k a] [<- Hin]].
  apply (find_group_In _ _ _ S) in Hin. rewrite F in Hin.
  unfold aggregates_group, weekly_key. simpl.
  replace (fst k, snd k) with k by (destruct k; reflexivity).
  destruct (acc_of_holds _ _ Hin) as (Hi & Ho & Hy & Hm).
  split; [| split; [| split; [| split]]].
  - intros E. rewrite E in Hin. discriminate Hin.
  - rewrite Hi. apply mean_of_is.
  - rewrite Ho. apply mean_of_is.
  - assumption.
  - assumption.
Qed.

Lemma aggregate_weekly_keys (df : list Daily.row) :
  map weekly_key (aggregate_weekly df) = map fst (groupby df).
Proof.
  unfold aggregate_weekly. rewrite map_map. apply map_ext.
  intros [[y w] a]. reflexivity.
Qed.

Lemma in_labels_of (df : list Daily.row) (k : key) :
  In k (labels_of df) <->
  exists r, In r df /\
            Daily.Year r = Some (fst k) /\ Daily.Week_Number r = Some (snd k).
Proof.
  induction df as [| r df IH]; simpl.
  - split; [contradiction | intros [? [[] _]]].
  - destruct (Daily.Year r) as [y |] eqn:Ey, (Daily.Week_Number r) as [w |] eqn:Ew;
      simpl; rewrite IH; split.
    + intros [<- | [r' [H1 H2]]]; [exists r; auto | exists r'; auto].
    + intros [r' [[-> | H1] [H2 H3]]].
      * left. destruct k. simpl in *. congruence.
      * right. exists r'; auto.
    + intros [r' [H1 H2]]. exists r'; auto.
    + intros [r' [[-> | H1] [H2 H3]]]; [congruence | exists r'; auto].
    + intros [r' [H1 H2]]. exists r'; auto.
    + intros [r' [[-> | H1] [H2 H3]]]; [congruence | exists r'; auto].
    + intros [r' [H1 H2]]. exists r'; auto.
    + intros [r' [[-> | H1] [H2 H3]]]; [congruence | exists r'; auto].
Qed.

Lemma in_group (df : list Daily.row) (k : key) (r : Daily.row) :
  In r (group k df) <->
  In r df /\ Daily.Year r = Some (fst k) /\ Daily.Week_Number r = Some (snd k).
Proof.
  unfold group. rewrite filter_In.
  destruct (Daily.Year r) as [y |], (Daily.Week_Number r) as [w |];
    try (split; [intros [_ H]; discriminate H | intros [_ [H1 H2]]; discriminate]).
  rewrite andb_true_iff, !Z.eqb_eq. split.
  - intros [H [-> ->]]. auto.
  - intros [H [H1 H2]]. inversion H1. inversion H2. auto.
Qed.

Lemma group_nonempty (df : list Daily.row) (k : key) :
  group k df <> [] <-> In k (labels_of df).
Proof.
  rewrite in_labels_of. split.
  - intros H. destruct (group k df) as [| r g] eqn:E; [contradiction |].
    assert (Hr : In r (group k df)) by (rewrite E; left; reflexivity).
    apply in_group in Hr. exists r. exact Hr.
  - intros [r Hr] E. apply in_group in Hr. rewrite E in Hr. contradiction.
Qed.

(** The labels of the weekly table are those of the daily table. *)
Lemma aggregate_weekly_labels (df : list Daily.row) (k : key) :
  In k (map weekly_key (aggregate_weekly df)) <-> In k (labels_of df).
Proof.
  rewrite aggregate_weekly_keys.
  destruct (groupby_groups_of df) as [S F].
  rewrite <- group_nonempty. split.
  - intros Hin. apply in_map_iff in Hin. destruct Hin as [[k' a] [<- Hin]].
    simpl. apply (find_group_In _ _ _ S) in Hin. rewrite F in Hin.
    intros E. rewrite E in Hin. discriminate Hin.
  - intros Hne. destruct (acc_of (group k df)) as [a |] eqn:E.
    + rewrite <- F in E. apply find_group_Some in E.
      apply in_map_iff. exists (k, a). auto.
    + destruct (group k df); [contradiction | discriminate E].
Qed.

Lemma aggregate_weekly_sorted (df : list Daily.row) :
  StronglySorted key_lt (map weekly_key (aggregate_weekly df)).
Proof.
  rewrite aggregate_weekly_keys. apply groupby_groups_of.
Qed.

(** One weekly row for each distinct label of the daily table. *)
Lemma aggregate_weekly_length (df : list Daily.row) :
  length (aggregate_weekly df) = length (distinct_labels df).
Proof.
  rewrite <- (length_map weekly_key).
  apply Permutation_length. apply NoDup_Permutation.
  - apply sorted_keys_NoDup, aggregate_weekly_sorted.
  - apply NoDup_nodup.
  - intros k. rewrite aggregate_weekly_labels. unfold distinct_labels.
    rewrite nodup_In. reflexivity.
Qed.

Lemma is_max_flag (m : Z) (l : list Z) :
  Forall (fun x => x = 0 \/ x = 256) l -> is_max_Z m l -> flag_of_group m l.
Proof.
  intros B [Hin Hle]. unfold flag_of_group.
  rewrite Forall_forall in B, Hle.
  destruct (B m Hin) as [-> | ->].
  - right. split; [reflexivity |]. apply Forall_forall. intros x Hx.
    specialize (Hle x Hx). destruct (B x Hx); lia.
  - left. auto.
Qed.

Lemma derive_flags_binary (df : list Parsed.row) (f : Daily.row -> Z) (k : key) :
  (forall r, f (derive_row r) = 0 \/ f (derive_row r) = 256) ->
  Forall (fun x => x = 0 \/ x = 256) (map f (group k (derive_time_features df))).
Proof.
  intros Hf. apply Forall_forall. intros x Hx.
  apply in_map_iff in Hx. destruct Hx as [r [<- Hr]].
  unfold group in Hr. apply filter_In in Hr. destruct Hr as [Hr _].
  unfold derive_time_features in Hr. apply in_map_iff in Hr.
  destruct Hr as [p [<- _]]. apply Hf.
Qed.

Lemma np_where_binary (c : bool) : np_where c 256 0 = 0 \/ np_where c 256 0 = 256.
Proof. destruct c; simpl; auto. Qed.



(** ** Proportional scaling *)

Lemma Qmax2_cases (a b : Q) :
  (Qmax2 a b = b /\ (a <= b)%Q) \/ (Qmax2 a b = a /\ (b <= a)%Q).
Proof.
  unfold Qmax2. destruct (Qle_bool a b) eqn:E.
  - left. split; [reflexivity | apply Qle_bool_iff; exact E].
  - right. split; [reflexivity |]. apply Qlt_le_weak, Qnot_le_lt.
    intros H. apply Qle_bool_iff in H. congruence.
Qed.

Lemma fold_Qmax2 (l : list Q) (x : Q) :
  In (fold_left Qmax2 l x) (x :: l) /\
  Forall (fun y => (y <= fold_left Qmax2 l x)%Q) (x :: l).
Proof.
  revert x. induction l as [| y l IH]; intros x; simpl.
  - split; [auto | repeat constructor; apply Qle_refl].
  - destruct (IH (Qmax2 x y)) as [Hin Hle].
    inversion Hle as [| ? ? Hm Hl]; subst. split.
    + destruct Hin as [E | Hin]; [| right; right; exact Hin].
      destruct (Qmax2_cases x y) as [[Em _] | [Em _]]; rewrite Em in *;
        [right; left | left]; exact E.
    + destruct (Qmax2_cases x y) as [[Em L] | [Em L]]; rewrite Em in *.
      * constructor; [eapply Qle_trans; eauto |]. constructor; assumption.
      * constructor; [assumption |].
        constructor; [eapply Qle_trans; eauto | assumption].
Qed.

(** [Series.max()] returns an entry of the series that no entry exceeds. *)
Lemma series_max_spec (s : list (option Q)) :
  match series_max s with
  | Some m => In m (present s) /\ Forall (fun y => (y <= m)%Q) (present s)
  | None => present s = []
  end.
Proof.
  unfold series_max. destruct (present s) as [| x l]; [reflexivity |].
  apply fold_Qmax2.
Qed.

(** The greatest entry of a series, as a number, is what [Series.max()]
    returns. *)
Lemma series_max_is (s : list (option Q)) (m : Q) :
  is_max_Q m (present s) -> exists m', series_max s = Some m' /\ (m' == m)%Q.
Proof.
  intros [[x [Hx Ex]] Hle].
  pose proof (series_max_spec s) as H.
  destruct (series_max s) as [m' |].
  - destruct H as [Hin Hle']. exists m'. split; [reflexivity |].
    rewrite Forall_forall in Hle, Hle'.
    apply Qle_antisym; [apply Hle; exact Hin |].
    rewrite <- Ex. apply Hle'. exact Hx.
  - rewrite H in Hx. contradiction.
Qed.

(** Rounding sees the number, not the fraction that writes it. *)
Lemma round64_Qeq (x y : Q) : (x == y)%Q -> round64 x = round64 y.
Proof.
  intros E. unfold round64. rewrite (Qred_complete x y E). reflexivity.
Qed.

(** The quotient of two float64 numbers is the float64 number nearest
    to their exact quotient. *)
Lemma fdiv_float64 (x y : Q) :
  is_float64 x -> is_float64 y -> ~ (y == 0)%Q ->
  fdiv (to_float64 x) (to_float64 y) = round64 (x / y).
Proof.
  unfold is_float64, float_eq. intros Hx Hy Hnz.
  destruct (to_float64 x) as [a | | |]; try contradiction.
  destruct (to_float64 y) as [b | | |]; try contradiction.
  unfold fdiv.
  destruct (Qeq_bool b 0) eqn:Z0.
  - apply Qeq_bool_iff in Z0. exfalso. apply Hnz. rewrite <- Hy. exact Z0.
  - apply round64_Qeq. rewrite Hx, Hy. reflexivity.
Qed.

(** C6 (scale factor).  When the greatest [in] of the daily table is
    [mi] and its greatest [out] is [mo], the scale factor is the float64
    quotient of [mo] by [mi]: for two float64 numbers with [mi] not 0,
    the float64 number nearest to [mo / mi].  The scaling cell reports
    this factor whatever the weekly table is, and maxima of 100 and 1000
    give the factor 10. *)
Theorem scale_factor_is_ratio (df : list Daily.row) (mi mo : Q) :
  is_max_Q mi (present (map Daily.in_ df)) ->
  is_max_Q mo (present (map Daily.out df)) ->
  scaling_factor df = fdiv (to_float64 mo) (to_float64 mi) /\
  (is_float64 mo -> is_float64 mi -> ~ (mi == 0)%Q ->
   scaling_factor df = round64 (mo / mi)) /\
  (forall weekly_df factor scaled,
      scaling_cell df weekly_df = Ok (factor, scaled) ->
      factor = scaling_factor df) /\
  ((mi == 100)%Q -> (mo == 1000)%Q -> scaling_factor df = Fin 10).
Proof.
  intros Hi Ho.
  destruct (series_max_is _ _ Hi) as [mi' [Ei Qi]].
  destruct (series_max_is _ _ Ho) as [mo' [Eo Qo]].
  assert (Ef : scaling_factor df = fdiv (to_float64 mo) (to_float64 mi)).
  { unfold scaling_factor, true_divide, to_float64. rewrite Ei, Eo.
    rewrite (round64_Qeq _ _ Qi), (round64_Qeq _ _ Qo). reflexivity. }
  split; [exact Ef |]. split; [| split].
  - intros Fo Fi Hnz. rewrite Ef. apply fdiv_float64; assumption.
  - intros weekly_df factor scaled H. unfold scaling_cell in H.
    destruct (out_quant_scaled _ _) as [sc |]; simpl in H; [| discriminate H].
    inversion H. reflexivity.
  - intros H100 H1000. rewrite Ef. unfold to_float64.
    rewrite (round64_Qeq _ _ H100), (round64_Qeq _ _ H1000).
    vm_compute. reflexivity.
Qed.

(** On [thirds] the greatest [in] is 3 and the greatest [out] is 1: the
    factor is the float64 number nearest to 1/3. *)
Lemma scale_factor_is_ratio_witness :
  (scaling_factor thirds = fdiv (to_float64 1) (to_float64 3) /\
   (is_float64 1 -> is_float64 3 -> ~ (3 == 0)%Q ->
    scaling_factor thirds = round64 (1 / 3)) /\
   (forall weekly_df factor scaled,
       scaling_cell thirds weekly_df = Ok (factor, scaled) ->
       factor = scaling_factor thirds) /\
   ((3 == 100)%Q -> (1 == 1000)%Q -> scaling_factor thirds = Fin 10)) /\
  scaling_factor thirds = Fin (6004799503160661 # 18014398509481984) /\
  scaling_factor two_days = Fin 10.
Proof.
  split; [| split; vm_compute; reflexivity].
  apply (scale_factor_is_ratio thirds 3 1).
  - split.
    + exists 3%Q. split; [simpl; auto | reflexivity].
    + simpl. repeat constructor; unfold Qle; simpl; lia.
  - split.
    + exists 1%Q. split; [simpl; auto | reflexivity].
    + simpl. repeat constructor; unfold Qle; simpl; lia.
Defined.

(** *** The order of the float64 values *)

Lemma Qle_bool_false (x y : Q) : (y < x)%Q -> Qle_bool x y = false.
Proof.
  intros L. destruct (Qle_bool x y) eqn:E; [| reflexivity].
  apply Qle_bool_iff in E. exfalso. exact (Qlt_not_le _ _ L E).
Qed.

Lemma Qle_bool_true (x y : Q) : (x <= y)%Q -> Qle_bool x y = true.
Proof. apply Qle_bool_iff. Qed.

Lemma Qle_bool_false_lt (x y : Q) : Qle_bool x y = false -> (y < x)%Q.
Proof.
  intros E. apply Qnot_le_lt. intros H. apply Qle_bool_iff in H. congruence.
Qed.

(** [flt] decides [float_lt]. *)
Lemma flt_spec (a b : float) : flt a b = true <-> float_lt a b.
Proof.
  destruct a as [x | | |], b as [y | | |]; simpl;
    try (split; [intros H; discriminate H | intros []]);
    try (split; [intros _; exact I | intros _; reflexivity]).
  rewrite negb_true_iff. split.
  - apply Qle_bool_false_lt.
  - apply Qle_bool_false.
Qed.

Lemma flt_false (a b : float) : flt a b = false <-> ~ float_lt a b.
Proof.
  rewrite <- flt_spec. destruct (flt a b); split; congruence.
Qed.

Lemma float_lt_irrefl (a : float) : ~ float_lt a a.
Proof. destruct a; simpl; auto. apply Qlt_irrefl. Qed.

Lemma float_lt_trans (a b c : float) :
  float_lt a b -> float_lt b c -> float_lt a c.
Proof.
  destruct a, b, c; simpl; auto; try contradiction. apply Qlt_trans.
Qed.

Lemma float_lt_asym (a b : float) : float_lt a b -> ~ float_lt b a.
Proof.
  intros H H'. exact (float_lt_irrefl a (float_lt_trans _ _ _ H H')).
Qed.

(** Two values neither of which is below the other, and neither of
    which is NaN, are not separated by a third. *)
Lemma float_lt_negtrans (a b c : float) :
  b <> NaN -> ~ float_lt a b -> ~ float_lt b c -> ~ float_lt a c.
Proof.
  destruct a as [x | | |], b as [y | | |], c as [z | | |]; simpl; auto;
    try (intros N; contradiction N; reflexivity).
  intros _ H1 H2 H3. apply Qnot_lt_le in H1, H2.
  exact (Qlt_not_le _ _ H3 (Qle_trans _ _ _ H2 H1)).
Qed.

(** The order of the search on a key that is not NaN. *)
Lemma np_lt_key (a key : float) : key <> NaN -> np_lt a key = flt a key.
Proof.
  intros N. unfold np_lt. destruct key; try reflexivity;
    try (simpl; apply orb_false_r). contradiction N. reflexivity.
Qed.

Lemma np_lt_irrefl (a : float) : np_lt a a = false.
Proof.
  unfold np_lt. destruct a as [x | | |]; simpl; try reflexivity.
  rewrite orb_false_r, negb_false_iff. apply Qle_bool_true, Qle_refl.
Qed.

Lemma np_lt_true (a b : float) :
  np_lt a b = true <-> float_lt a b \/ (b = NaN /\ a <> NaN).
Proof.
  unfold np_lt. rewrite orb_true_iff, andb_true_iff, flt_spec, negb_true_iff.
  split; (intros [H | [H1 H2]]; [left; exact H | right]).
  - destruct b; try discriminate H1. split; [reflexivity |].
    intros ->. discriminate H2.
  - subst b. split; [reflexivity |]. destruct a; try reflexivity.
    contradiction H2. reflexivity.
Qed.

Lemma np_lt_trans (a b c : float) :
  np_lt a b = true -> np_lt b c = true -> np_lt a c = true.
Proof.
  rewrite !np_lt_true. intros [H1 | [-> Na]] [H2 | [-> Nb]].
  - left. eapply float_lt_trans; eassumption.
  - right. split; [reflexivity |]. intros ->. destruct b; contradiction.
  - destruct c; contradiction.
  - contradiction Nb. reflexivity.
Qed.

Lemma np_lt_negtrans (a b c : float) :
  np_lt a b = false -> np_lt b c = false -> np_lt a c = false.
Proof.
  intros H1 H2.
  destruct (np_lt a c) eqn:H3; [| reflexivity]. exfalso.
  assert (F1 : ~ (float_lt a b \/ (b = NaN /\ a <> NaN))).
  { rewrite <- np_lt_true. congruence. }
  assert (F2 : ~ (float_lt b c \/ (c = NaN /\ b <> NaN))).
  { rewrite <- np_lt_true. congruence. }
  apply np_lt_true in H3.
  destruct a as [x | | |], b as [y | | |], c as [z | | |]; simpl in *;
    try (destruct H3 as [H3 | [H3 H3']]; try discriminate H3; try contradiction;
         try (contradiction H3'; reflexivity));
    try (apply F1; auto; fail); try (apply F2; auto; fail);
    try (apply F1; right; split; [reflexivity | discriminate]; fail);
    try (apply F2; right; split; [reflexivity | discriminate]; fail).
  assert (L1 : (y <= x)%Q) by (apply Qnot_lt_le; intros H; apply F1; auto).
  assert (L2 : (z <= y)%Q) by (apply Qnot_lt_le; intros H; apply F2; auto).
  exact (Qlt_not_le _ _ H3 (Qle_trans _ _ _ L2 L1)).
Qed.

(** *** The binary search *)

Lemma half_lt (n : nat) : (0 < n)%nat -> (n / 2 < n)%nat.
Proof. intros H. apply Nat.div_lt; lia. Qed.

(** The loop ends with both indices on an index that brackets the key,
    when it starts from an interval whose lower end has an entry below
    the key before it and whose upper end, or the entry before that,
    is not below the key. *)
Lemma binsearch_loop_spec (fuel : nat) (arr : list float) (key : float)
    (lo hi : nat) :
  (lo <= hi)%nat -> (hi <= length arr)%nat -> (hi - lo <= fuel)%nat ->
  (lo = O \/ np_lt (nth (lo - 1) arr NaN) key = true) ->
  (hi = length arr \/ np_lt (nth hi arr NaN) key = false \/
   ((lo < hi)%nat /\ np_lt (nth (hi - 1) arr NaN) key = false)) ->
  exists id, binsearch_loop fuel arr key lo hi = (id, id) /\ brackets arr key id.
Proof.
  revert lo hi. induction fuel as [| fuel IH]; intros lo hi L1 L2 L3 Hlo Hhi.
  - assert (lo = hi) by lia. subst hi. exists lo. split; [reflexivity |].
    split; [exact L2 |]. split; [exact Hlo |].
    destruct Hhi as [H | [H | [H _]]]; [auto | auto | lia].
  - cbn [binsearch_loop]. destruct (lo <? hi)%nat eqn:C.
    + apply Nat.ltb_lt in C.
      pose proof (half_lt (hi - lo) ltac:(lia)) as Hh.
      set (mid := (lo + (hi - lo) / 2)%nat) in *.
      assert (M1 : (lo <= mid)%nat) by (unfold mid; lia).
      assert (M2 : (mid < hi)%nat) by (unfold mid; lia).
      destruct (np_lt (nth mid arr NaN) key) eqn:B.
      * apply IH; try lia.
        -- right. replace (mid + 1 - 1)%nat with mid by lia. exact B.
        -- destruct Hhi as [H | [H | [_ H]]]; [auto | auto |].
           right. right. split; [| exact H].
           destruct (Nat.eq_dec mid (hi - 1)) as [E | N]; [| lia].
           rewrite E in B. congruence.
      * apply IH; try lia; auto.
    + apply Nat.ltb_ge in C. assert (lo = hi) by lia. subst hi.
      exists lo. split; [reflexivity |].
      split; [exact L2 |]. split; [exact Hlo |].
      destruct Hhi as [H | [H | [H _]]]; [auto | auto | lia].
Qed.

(** Every index that the search returns brackets its key. *)
Lemma binsearch_spec (arr : list float) (keys : list float) (last_key : float)
    (min_idx max_idx : nat) :
  (min_idx <= length arr)%nat -> (max_idx <= length arr)%nat ->
  (min_idx = O \/ np_lt (nth (min_idx - 1) arr NaN) last_key = true) ->
  (max_idx = length arr \/ np_lt (nth max_idx arr NaN) last_key = false) ->
  Forall2 (brackets arr) keys (binsearch arr keys last_key min_idx max_idx).
Proof.
  revert last_key min_idx max_idx.
  induction keys as [| key keys IH]; intros last_key mn mx L1 L2 Hmn Hmx;
    cbn [binsearch]; [constructor |].
  destruct (np_lt last_key key) eqn:C.
  - destruct (binsearch_loop_spec (length arr) arr key mn (length arr))
      as (id & E & B); [lia | lia | lia | | auto |].
    + destruct Hmn as [H | H]; [auto |]. right.
      exact (np_lt_trans _ _ _ H C).
    + rewrite E. constructor; [exact B |].
      destruct B as (B1 & B2 & B3). apply IH; auto.
  - destruct (mx <? length arr)%nat eqn:D.
    + apply Nat.ltb_lt in D.
      destruct (binsearch_loop_spec (length arr) arr key 0 (mx + 1))
        as (id & E & B); [lia | lia | lia | auto | |].
      * right. right. split; [lia |].
        replace (mx + 1 - 1)%nat with mx by lia.
        destruct Hmx as [H | H]; [lia |].
        exact (np_lt_negtrans _ _ _ H C).
      * rewrite E. constructor; [exact B |].
        destruct B as (B1 & B2 & B3). apply IH; auto.
    + destruct (binsearch_loop_spec (length arr) arr key 0 (length arr))
        as (id & E & B); [lia | lia | lia | auto | auto |].
      rewrite E. constructor; [exact B |].
      destruct B as (B1 & B2 & B3). apply IH; auto.
Qed.

Lemma searchsorted_spec (bins x : list float) :
  Forall2 (brackets bins) x (searchsorted bins x).
Proof.
  unfold searchsorted. destruct x as [| key x]; [constructor |].
  apply binsearch_spec; [lia | lia | auto | auto].
Qed.

(** *** The scaled quantized series *)

Section ListFacts.
Context {A B C : Type}.

Lemma nth_error_zip_with (f : A -> B -> C) (l : list A) (l' : list B) (i : nat) :
  nth_error (zip_with f l l') i
  = match nth_error l i, nth_error l' i with
    | Some a, Some b => Some (f a b)
    | _, _ => None
    end.
Proof.
  revert l' i. induction l as [| a l IH]; intros [| b l'] [| i]; simpl; auto.
  destruct (nth_error l i); reflexivity.
Qed.

Lemma length_zip_with (f : A -> B -> C) (l : list A) (l' : list B) :
  length l = length l' -> length (zip_with f l l') = length l.
Proof.
  revert l'. induction l as [| a l IH]; intros [| b l'] H; simpl in *;
    try discriminate; auto.
Qed.

Lemma Forall2_nth_error (R : A -> B -> Prop) (l : list A) (l' : list B)
    (i : nat) (a : A) :
  Forall2 R l l' -> nth_error l i = Some a ->
  exists b, nth_error l' i = Some b /\ R a b.
Proof.
  intros H. revert i. induction H as [| x y l l' Hxy _ IH]; intros [| i] E;
    simpl in *; try discriminate.
  - inversion E; subst. eauto.
  - apply IH. exact E.
Qed.
End ListFacts.

Lemma nth_map_seq {A : Type} (f : nat -> A) (n i : nat) (d : A) :
  (i < n)%nat -> nth i (map f (seq 0 n)) d = f i.
Proof.
  intros H.
  rewrite (nth_indep _ d (f O)) by (rewrite length_map, length_seq; exact H).
  rewrite map_nth, seq_nth by exact H. reflexivity.
Qed.

Lemma nth_range (a b : Z) (i : nat) :
  (i < Z.to_nat (b - a))%nat -> nth i (range a b) 0 = a + Z.of_nat i.
Proof.
  intros H. unfold range.
  exact (nth_map_seq (fun i => a + Z.of_nat i) _ i 0 H).
Qed.

Lemma length_range (a b : Z) : length (range a b) = Z.to_nat (b - a).
Proof. unfold range. rewrite length_map, length_seq. reflexivity. Qed.

Lemma length_linspace (a b : float) (n : nat) : length (linspace a b (S n)) = S n.
Proof.
  unfold linspace. rewrite seq_S, !map_app. simpl.
  destruct (feqb _ _); rewrite map_app; simpl;
    rewrite removelast_last, length_app, !length_map, length_seq; simpl; lia.
Qed.

(** [pd.cut] draws one edge more than it has bins. *)
Lemma length_nbins_to_bins (x : list float) (n : nat) (bins : list float) :
  nbins_to_bins x n = Ok bins -> length bins = S n.
Proof.
  unfold nbins_to_bins. destruct x as [| x0 x]; [discriminate |].
  destruct (is_inf _ || is_inf _); [discriminate |].
  rewrite Nat.add_1_r.
  destruct (feqb _ _); intros H; inversion H; subst bins.
  - apply length_linspace.
  - pose proof (length_linspace (nanmin (x0 :: x)) (nanmax (x0 :: x)) n) as L.
    destruct (linspace _ _ (S n)); [discriminate L | exact L].
Qed.

Lemma length_searchsorted (bins x : list float) :
  length (searchsorted bins x) = length x.
Proof.
  symmetry. eapply Forall2_length. apply searchsorted_spec.
Qed.

(** The float64 value of a label, 1 to 48, is the label. *)
Lemma astype_float_label (l : nat) :
  (1 <= l <= 48)%nat ->
  astype_float (Some (Z.of_nat l)) = Fin (inject_Z (Z.of_nat l)).
Proof.
  intros H.
  do 49 (destruct l as [| l]; [try lia; vm_compute; reflexivity |]). lia.
Qed.

(** The product of a label with the factor. *)
Lemma fmul_label (l : nat) (factor : float) :
  (1 <= l <= 48)%nat ->
  fmul (astype_float (Some (Z.of_nat l))) factor
  = scaled_label (Z.of_nat l) factor.
Proof.
  intros H. rewrite (astype_float_label l H).
  do 49 (destruct l as [| l]; [try lia; destruct factor; reflexivity |]). lia.
Qed.

Lemma fmul_NaN (factor : float) : fmul NaN factor = NaN.
Proof. destruct factor; reflexivity. Qed.

(** One entry of the labels that [pd.cut] returns, against the entry of
    the series and the edges. *)
Lemma bins_to_cuts_entry (x bins : list float) (labels : list (option Z))
    (i : nat) (v : float) :
  length bins = 49%nat ->
  bins_to_cuts x bins (range 1 49) = Ok labels ->
  nth_error x i = Some v ->
  (nth_error labels i = Some None /\
   (v = NaN \/ ~ float_lt (nth 0 bins NaN) v \/ float_lt (nth 48 bins NaN) v))
  \/
  (exists l : nat,
      (1 <= l <= 48)%nat /\ v <> NaN /\
      float_lt (nth (l - 1) bins NaN) v /\ ~ float_lt (nth l bins NaN) v /\
      nth_error labels i = Some (Some (Z.of_nat l))).
Proof.
  intros L H Hv. unfold bins_to_cuts in H.
  remember (range 1 49) as lab eqn:Elab.
  destruct (has_duplicates bins && _); [discriminate H |].
  destruct (negb _); [discriminate H |].
  inversion H; subst labels. clear H.
  destruct (Forall2_nth_error _ _ _ i v (searchsorted_spec bins x) Hv)
    as (id & Hid & B1 & B2 & B3).
  rewrite nth_error_zip_with, Hv, Hid. rewrite L in *.
  destruct v as [q | | |].
  4: { left. split; [reflexivity | left; reflexivity]. }
  all: cbn [is_nan orb].
  all: destruct (id =? 49)%nat eqn:E49;
    [ apply Nat.eqb_eq in E49; subst id; left; split; [reflexivity |];
      right; right; destruct B2 as [B2 | B2]; [discriminate B2 |];
      rewrite np_lt_key in B2 by discriminate; apply flt_spec; exact B2 |].
  all: destruct (id =? 0)%nat eqn:E0;
    [ apply Nat.eqb_eq in E0; subst id; left; split; [reflexivity |];
      right; left; destruct B3 as [B3 | B3]; [discriminate B3 |];
      rewrite np_lt_key in B3 by discriminate; apply flt_false; exact B3 |].
  all: apply Nat.eqb_neq in E49, E0; right; exists id;
    destruct B2 as [B2 | B2]; [lia |]; destruct B3 as [B3 | B3]; [lia |];
    rewrite np_lt_key in B2, B3 by discriminate;
    (split; [lia |]); (split; [discriminate |]);
    (split; [apply flt_spec; exact B2 |]);
    (split; [apply flt_false; exact B3 |]);
    cbn [orb]; subst lab;
    rewrite nth_range by (change (Z.to_nat (49 - 1)) with 48%nat; lia);
    do 2 f_equal; lia.
Qed.



Lemma scaling_two_mondays :
  scaling_cell two_mondays (aggregate_weekly two_mondays)
  = Ok (Fin (1 # 2), [Fin (1 # 2); Fin 24]).
Proof. vm_compute. reflexivity. Qed.


(** ** Trend isolation *)

Lemma length_shift (s : list float) : length (shift s) = length s.
Proof. unfold shift. rewrite length_firstn. simpl. lia. Qed.

Lemma nth_error_shift_0 (s : list float) (x : float) :
  nth_error s 0 = Some x -> nth_error (shift s) 0 = Some NaN.
Proof. destruct s; simpl; [discriminate | reflexivity]. Qed.

Lemma nth_error_shift_S (s : list float) (j : nat) (x : float) :
  nth_error s (S j) = Some x -> nth_error (shift s) (S j) = nth_error s j.
Proof.
  intros H. unfold shift. rewrite nth_error_firstn.
  assert (L : (S j < length s)%nat) by (apply nth_error_Some; congruence).
  apply Nat.ltb_lt in L. rewrite L. reflexivity.
Qed.

Lemma nth_error_assign_trends (w : list Weekly.row) (iu id ou od : list float)
    (i : nat) (r : Trend.row) :
  nth_error (assign_trends w iu id ou od) i = Some r ->
  exists cur a b c d,
    nth_error w i = Some cur /\ nth_error iu i = Some a /\
    nth_error id i = Some b /\ nth_error ou i = Some c /\
    nth_error od i = Some d /\
    r = Trend.mk (Weekly.Year cur) (Weekly.Week_Number cur)
                 (Weekly.in_mean cur) (Weekly.out_mean cur)
                 (Weekly.Year_Start cur) (Weekly.Month_Start cur) a b c d.
Proof.
  revert iu id ou od i.
  induction w as [| cur w IH]; intros [| a iu] [| b id] [| c ou] [| d od] i H;
    try (destruct i; discriminate H).
  destruct i as [| i]; simpl in H.
  - inversion H; subst r. exists cur, a, b, c, d. simpl. auto 10.
  - apply IH in H. exact H.
Qed.

Lemma length_assign_trends (w : list Weekly.row) (iu id ou od : list float) :
  length iu = length w -> length id = length w ->
  length ou = length w -> length od = length w ->
  length (assign_trends w iu id ou od) = length w.
Proof.
  revert iu id ou od.
  induction w as [| cur w IH]; intros [| a iu] [| b id] [| c ou] [| d od];
    simpl; intros; try discriminate; auto.
Qed.

Lemma length_split_trend (w : list Weekly.row) :
  length (split_trend w) = length w.
Proof.
  assert (Z2 : forall s : list float, length s = length (shift s))
    by (intros s; symmetry; apply length_shift).
  unfold split_trend, where_.
  apply length_assign_trends;
    rewrite length_zip_with, length_map; auto;
    rewrite length_zip_with; auto.
Qed.

(** One entry of an up column and of a down column, from the week's
    value [v] and the entry [p] that [shift] puts beside it. *)
Lemma where_gt_lt (v p : float) :
  let up := if gt v p then v else Fin 0 in
  let down := if lt v p then v else Fin 0 in
  trend_of v p up down /\ (up = Fin 0 \/ down = Fin 0).
Proof.
  cbv zeta. unfold trend_of, gt, lt.
  destruct (flt p v) eqn:G; destruct (flt v p) eqn:L.
  - apply flt_spec in G, L. exfalso. exact (float_lt_asym _ _ G L).
  - apply flt_spec in G. apply flt_false in L.
    split; [| auto]. split; [auto |]. split; [| contradiction].
    intros H. contradiction.
  - apply flt_false in G. apply flt_spec in L.
    split; [| auto]. split; [intros H; contradiction |].
    split; [auto | intros _ H; contradiction].
  - apply flt_false in G, L.
    split; [| auto]. split; [intros H; contradiction |].
    split; [intros H; contradiction | auto].
Qed.

(** One entry of [s.where(cmp(s, s.shift()), 0)]. *)
Lemma where_entry (cmp : float -> float -> bool) (s : list float)
    (i : nat) (v a : float) :
  nth_error s i = Some v ->
  nth_error (where_ s (zip_with cmp s (shift s)) 0) i = Some a ->
  a = (if cmp v (match i with
                 | O => NaN
                 | S j => nth j s NaN
                 end) then v else Fin 0).
Proof.
  intros Hv Ha. unfold where_ in Ha.
  rewrite !nth_error_zip_with, Hv in Ha.
  destruct i as [| j].
  - rewrite (nth_error_shift_0 _ _ Hv) in Ha. congruence.
  - rewrite (nth_error_shift_S _ _ _ Hv) in Ha.
    assert (Lj : (j < length s)%nat).
    { apply Nat.lt_succ_l, nth_error_Some. congruence. }
    rewrite (nth_error_nth' s NaN Lj) in Ha. congruence.
Qed.

(** The entries of one row of the trend table, traced back to the
    weekly table: [prev] is what [shift] puts beside the row. *)
Lemma split_trend_row (w : list Weekly.row) (i : nat) (r : Trend.row) :
  nth_error (split_trend w) i = Some r ->
  exists cur,
    nth_error w i = Some cur /\
    Trend.in_mean r = Weekly.in_mean cur /\
    Trend.out_mean r = Weekly.out_mean cur /\
    let prev_in := match i with
                   | O => NaN
                   | S j => nth j (map Weekly.in_mean w) NaN
                   end in
    let prev_out := match i with
                    | O => NaN
                    | S j => nth j (map Weekly.out_mean w) NaN
                    end in
    Trend.in_up r = (if gt (Weekly.in_mean cur) prev_in
                     then Weekly.in_mean cur else Fin 0) /\
    Trend.in_down r = (if lt (Weekly.in_mean cur) prev_in
                       then Weekly.in_mean cur else Fin 0) /\
    Trend.out_up r = (if gt (Weekly.out_mean cur) prev_out
                      then Weekly.out_mean cur else Fin 0) /\
    Trend.out_down r = (if lt (Weekly.out_mean cur) prev_out
                        then Weekly.out_mean cur else Fin 0).
Proof.
  unfold split_trend. intros H.
  apply nth_error_assign_trends in H.
  destruct H as (cur & a & b & c & d & Hw & Ha & Hb & Hc & Hd & ->).
  assert (Hi : nth_error (map Weekly.in_mean w) i = Some (Weekly.in_mean cur))
    by (rewrite nth_error_map, Hw; reflexivity).
  assert (Ho : nth_error (map Weekly.out_mean w) i = Some (Weekly.out_mean cur))
    by (rewrite nth_error_map, Hw; reflexivity).
  exists cur. simpl.
  rewrite (where_entry gt _ _ _ _ Hi Ha), (where_entry lt _ _ _ _ Hi Hb),
          (where_entry gt _ _ _ _ Ho Hc), (where_entry lt _ _ _ _ Ho Hd).
  auto 10.
Qed.

Lemma flt_NaN_r (a : float) : flt a NaN = false.
Proof. destruct a; reflexivity. Qed.

(** C4 (trend isolation).  The trend table has the rows of the weekly
    table, in order.  In its first row the four trend entries are 0.  In
    every later row, for in_mean and for out_mean alike, the up entry is
    the row's value when that value is strictly greater than the value of
    the row before and 0 otherwise, the down entry is the row's value when
    it is strictly less and 0 otherwise, and both are 0 when the two
    values are equal or one of them is missing. *)
Theorem trend_isolation (w : list Weekly.row) (i : nat) (r : Trend.row) :
  nth_error (split_trend w) i = Some r ->
  length (split_trend w) = length w /\
  exists cur,
    nth_error w i = Some cur /\
    Trend.in_mean r = Weekly.in_mean cur /\
    Trend.out_mean r = Weekly.out_mean cur /\
    match i with
    | O =>
        Trend.in_up r = Fin 0 /\ Trend.in_down r = Fin 0 /\
        Trend.out_up r = Fin 0 /\ Trend.out_down r = Fin 0
    | S j =>
        exists prev,
          nth_error w j = Some prev /\
          trend_of (Weekly.in_mean cur) (Weekly.in_mean prev)
                   (Trend.in_up r) (Trend.in_down r) /\
          trend_of (Weekly.out_mean cur) (Weekly.out_mean prev)
                   (Trend.out_up r) (Trend.out_down r)
    end.
Proof.
  intros H. split; [apply length_split_trend |].
  destruct (split_trend_row w i r H)
    as (cur & Hw & Ein & Eout & Eiu & Eid & Eou & Eod).
  exists cur. repeat split; auto.
  destruct i as [| j].
  - rewrite Eiu, Eid, Eou, Eod. unfold gt, lt.
    rewrite !flt_NaN_r.
    destruct (Weekly.in_mean cur), (Weekly.out_mean cur); simpl; auto.
  - assert (Lj : (j < length w)%nat).
    { apply Nat.lt_succ_l, nth_error_Some. congruence. }
    destruct (nth_error w j) as [prev |] eqn:Hp;
      [| apply nth_error_None in Hp; lia].
    exists prev. split; [reflexivity |].
    assert (Pi : nth j (map Weekly.in_mean w) NaN = Weekly.in_mean prev).
    { apply nth_error_nth. rewrite nth_error_map, Hp. reflexivity. }
    assert (Po : nth j (map Weekly.out_mean w) NaN = Weekly.out_mean prev).
    { apply nth_error_nth. rewrite nth_error_map, Hp. reflexivity. }
    rewrite Pi in Eiu, Eid. rewrite Po in Eou, Eod.
    rewrite Eiu, Eid, Eou, Eod. split; apply where_gt_lt.
Qed.

(** The third of [three_weeks]: out_mean falls from 5 to 3, in_mean
    stays at 2. *)
Lemma trend_isolation_witness :
  length (split_trend three_weeks) = 3%nat /\
  exists cur,
    nth_error three_weeks 2 = Some cur /\
    Fin 2 = Weekly.in_mean cur /\
    Fin 3 = Weekly.out_mean cur /\
    exists prev,
      nth_error three_weeks 1 = Some prev /\
      trend_of (Weekly.in_mean cur) (Weekly.in_mean prev) (Fin 0) (Fin 0) /\
      trend_of (Weekly.out_mean cur) (Weekly.out_mean prev) (Fin 0) (Fin 3).
Proof.
  apply (trend_isolation three_weeks 2
           (Trend.mk 2024 3 (Fin 2) (Fin 3) 0 0
                     (Fin 0) (Fin 0) (Fin 0) (Fin 3))).
  reflexivity.
Defined.

(** C10 (one direction per week).  In every row of the trend table, for
    in_mean and for out_mean alike, the up entry or the down entry is 0:
    no week is marked rising and falling at once. *)
Theorem one_direction_per_week (w : list Weekly.row) :
  Forall (fun r =>
            (Trend.in_up r = Fin 0 \/ Trend.in_down r = Fin 0) /\
            (Trend.out_up r = Fin 0 \/ Trend.out_down r = Fin 0))
         (split_trend w).
Proof.
  apply Forall_forall. intros r Hr.
  apply In_nth_error in Hr. destruct Hr as [i Hi].
  destruct (split_trend_row w i r Hi)
    as (cur & _ & _ & _ & Eiu & Eid & Eou & Eod).
  rewrite Eiu, Eid, Eou, Eod. split; apply where_gt_lt.
Qed.

(** ** Finalization and export *)

(** Without the index, a line holds the cells of its row and nothing
    else. *)
Lemma to_csv_no_index (repr : cell -> string) (df : DataFrame) :
  to_csv repr false df
  = join (columns df) :: map (fun r => join (map repr r)) (rows df).
Proof.
  unfold to_csv, nrows. simpl. f_equal.
  generalize 0%nat. induction (rows df) as [| r l IH]; intros n; simpl;
    [reflexivity |].
  rewrite IH. reflexivity.
Qed.

Lemma finalize_weekly_frame (repr : cell -> string) (t : list Trend.row) :
  finalize_and_write repr (weekly_frame t)
  = Ok (mkFrame columns_to_keep (map final_cells t),
        mkFile output_filename
               ("in,out,Month_Start,Year_Start,in_up,in_down,out_up,out_down"
                :: map (fun r => join (map repr (final_cells r))) t)).
Proof.
  unfold finalize_and_write. 
  assert (G : getitem columns_to_keep
                (rename [("in_mean", "in"); ("out_mean", "out")] (weekly_frame t))
              = Ok (mkFrame columns_to_keep (map final_cells t))).
  { unfold getitem, weekly_frame, rename. simpl. rewrite map_map. reflexivity. }
  rewrite G. unfold bind. rewrite to_csv_no_index. simpl. rewrite map_map.
  reflexivity.
Qed.

(** C9 (output schema).  Whatever the weekly table holds, the last cell
    keeps the eight columns in, out, Month_Start, Year_Start, in_up,
    in_down, out_up, out_down, in this order, and writes to
    ./output/Processed_traffic.csv a header line that is exactly these
    eight names, followed by one line for each weekly row, in order, that
    holds the eight cells of the row and no row label; Year, Week_Number
    and the labels in_mean and out_mean are gone.  For the weekly table of
    a run, this is one data line for each distinct (Year, Week_Number)
    label of the enriched daily table. *)
Theorem output_schema (repr : cell -> string) :
  (forall weekly_df : list Trend.row,
      exists final_df data,
        finalize_and_write repr (weekly_frame weekly_df)
        = Ok (final_df,
              mkFile "./output/Processed_traffic.csv"
                ("in,out,Month_Start,Year_Start,in_up,in_down,out_up,out_down"
                 :: data)) /\
        columns final_df
        = ["in"; "out"; "Month_Start"; "Year_Start";
           "in_up"; "in_down"; "out_up"; "out_down"] /\
        rows final_df = map final_cells weekly_df /\
        Forall (fun r => length r = 8%nat) (rows final_df) /\
        data = map (fun r => join (map repr r)) (rows final_df) /\
        length data = length weekly_df /\
        Forall (fun c => ~ In c (columns final_df))
               ["Year"; "Week_Number"; "in_mean"; "out_mean"; "Week_Start"]) /\
  (forall df : list Parsed.row,
      let daily := derive_time_features df in
      length (split_trend (aggregate_weekly daily))
      = length (distinct_labels daily)).
Proof.
  split.
  - intros weekly_df.
    exists (mkFrame columns_to_keep (map final_cells weekly_df)).
    exists (map (fun r => join (map repr (final_cells r))) weekly_df).
    split; [apply finalize_weekly_frame |].
    split; [reflexivity |]. split; [reflexivity |].
    split; [| split; [| split]].
    + simpl. apply Forall_forall. intros r Hr.
      apply in_map_iff in Hr. destruct Hr as [w [<- _]]. reflexivity.
    + simpl. rewrite map_map. reflexivity.
    + apply length_map.
    + simpl. repeat constructor;
        intros H; repeat (destruct H as [H | H]; [discriminate H |]);
        exact H.
  - intros df. cbv zeta.
    rewrite length_split_trend. apply aggregate_weekly_length.
Qed.

(* ================================================================= *)
(** * Further properties *)

(** ** Ingestion: errors *)

Lemma readable_read_csv (file : csv_file) :
  readable file = true <-> exists df, read_csv file = Ok df.
Proof.
  unfold readable. destruct (read_csv file) as [df | e]; split;
    try discriminate; eauto. intros [df H]. discriminate H.
Qed.

(** A file with a first line fails to be read on a parser error
    only. *)
Lemma read_csv_error (file : csv_file) (e : error) :
  first_line file <> [] -> read_csv file = Err e -> e = ParserError.
Proof.
  unfold read_csv. destruct (first_line file); [contradiction |].
  destruct (forallb _ _); intros _ H; inversion H. reflexivity.
Qed.

Lemma loop_body_read (st : loop_state) (file : csv_file) :
  match read_csv file with
  | Ok _ => exists st', loop_body st file = Ok st'
  | Err e => loop_body st file = Err e
  end.
Proof.
  unfold loop_body. destruct (read_csv file) as [df | e]; [| reflexivity].
  unfold bind. destruct (negb (header_flag st)); eexists; reflexivity.
Qed.

Lemma loop_body_ok (st : loop_state) (file : csv_file) :
  readable file = true -> exists st', loop_body st file = Ok st'.
Proof.
  intros R. apply readable_read_csv in R. destruct R as [df R].
  pose proof (loop_body_read st file) as H. rewrite R in H. exact H.
Qed.

(** The loop stops at the first file that cannot be read. *)
Lemma loop_unreadable (files : list csv_file) (f : csv_file) (st : loop_state) :
  Forall (fun g => first_line g <> []) files ->
  In f files -> readable f = false ->
  loop st files = Err ParserError.
Proof.
  intros Hh. revert st. induction Hh as [| g files Hg _ IH]; intros st Hin Hf.
  - contradiction.
  - simpl. pose proof (loop_body_read st g) as H.
    destruct (read_csv g) as [df | e] eqn:R.
    + destruct H as [st' ->]. simpl. apply IH; [| exact Hf].
      destruct Hin as [-> | Hin]; [| exact Hin].
      unfold readable in Hf. rewrite R in Hf. discriminate Hf.
    + rewrite H. simpl. rewrite (read_csv_error g e Hg R). reflexivity.
Qed.

(** X1 (parser error).  In a file that has a header line, a record
    after the first one with more fields than both the header and the
    first record makes the ingestion fail with a parser error, whatever
    the other files hold, as long as each has a header line. *)
Theorem overlong_record_fails (files : list csv_file) (f : csv_file)
    (l : list cell) :
  Forall (fun g => first_line g <> []) files ->
  In f files -> In l (tl (data_lines f)) ->
  (table_width f < length l)%nat ->
  load_and_clean files = Err ParserError.
Proof.
  intros Hh Hf Hl Hw. unfold load_and_clean.
  rewrite (loop_unreadable files f _ Hh Hf); [reflexivity |].
  unfold readable, read_csv.
  destruct (first_line f); [reflexivity |].
  destruct (forallb _ (data_lines f)) eqn:E; [| reflexivity].
  rewrite forallb_forall in E.
  assert (Hin : In l (data_lines f)).
  { destruct (data_lines f); [contradiction | right; exact Hl]. }
  apply E, Nat.leb_le in Hin. lia.
Qed.

Lemma overlong_record_fails_witness :
  load_and_clean
    [export_a;
     mkCsv export_header [[CStr "2024-01-02"; CNum 6; CNum 8];
                          [CStr "2024-01-03"; CNum 6; CNum 8; CNum 9]]]
  = Err ParserError.
Proof.
  apply (overlong_record_fails _
           (mkCsv export_header [[CStr "2024-01-02"; CNum 6; CNum 8];
                                 [CStr "2024-01-03"; CNum 6; CNum 8; CNum 9]])
           [CStr "2024-01-03"; CNum 6; CNum 8; CNum 9]).
  - repeat constructor; discriminate.
  - right. left. reflexivity.
  - left. reflexivity.
  - vm_compute. lia.
Defined.

Lemma loop_body_frame (st : loop_state) (file : csv_file) (st' : loop_state) :
  loop_body st file = Ok st' ->
  exists df_temp,
    df_list st' = df_list st ++ [df_temp] /\
    header_flag st' = true /\
    columns df_temp = first_line file /\
    rows df_temp = kept_rows (negb (header_flag st)) file.
Proof.
  unfold loop_body, kept_rows.
  destruct (read_csv file) as [df |] eqn:R; [| discriminate].
  destruct (read_csv_rows _ _ R) as [C Rw]. unfold bind.
  destruct (header_flag st) eqn:F; simpl.
  - unfold shape1, iloc_from_1. simpl. rewrite C, Rw.
    destruct (2 <? length (first_line file))%nat; intros H; inversion H; subst;
      simpl; eexists; repeat split; auto.
  - unfold shape1. rewrite C.
    destruct (2 <? length (first_line file))%nat; intros H; inversion H; subst;
      eexists; repeat split; simpl; rewrite ?Rw; auto.
Qed.

(** The frames that the loop collects: one for each file, in order,
    under the header of the file. *)
Lemma loop_frames (files : list csv_file) (st st' : loop_state) :
  loop st files = Ok st' ->
  exists dfs,
    df_list st' = df_list st ++ dfs /\
    map columns dfs = map first_line files.
Proof.
  revert st. induction files as [| f files IH]; intros st H; simpl in H.
  - inversion H; subst. exists []. rewrite app_nil_r. auto.
  - destruct (loop_body st f) as [st1 |] eqn:E; simpl in H; [| discriminate H].
    destruct (loop_body_frame _ _ _ E) as (d & L & _ & C & _).
    destruct (IH _ H) as (dfs & L' & C').
    exists (d :: dfs). split.
    + rewrite L', L, <- app_assoc. reflexivity.
    + simpl. rewrite C, C'. reflexivity.
Qed.

Lemma fold_union_columns (dfs : list DataFrame) (acc : list string) (s : string) :
  In s (fold_left (fun acc df => acc ++ fresh_labels acc (columns df)) dfs acc) ->
  In s acc \/ exists df, In df dfs /\ In s (columns df).
Proof.
  revert acc. induction dfs as [| d dfs IH]; intros acc H; simpl in H; [auto |].
  apply IH in H. destruct H as [H | [df [H1 H2]]].
  - apply in_app_or in H. destruct H as [H | H]; [auto |].
    right. exists d. split; [left; reflexivity |].
    unfold fresh_labels in H. apply filter_In in H. apply H.
  - right. exists df. split; [right; exact H1 | exact H2].
Qed.

Lemma index_of_None (s : string) (l : list string) :
  ~ In s l -> index_of s l = None.
Proof.
  induction l as [| x l IH]; simpl; intros H; [reflexivity |].
  destruct (String.eqb_spec s x) as [-> | N].
  - exfalso. apply H. auto.
  - rewrite IH; [reflexivity | intros Hin; apply H; auto].
Qed.

(** X2 (missing Time column).  When every file can be read, there is at
    least one file and no header carries the label Time, the ingestion
    fails with a KeyError at [sort_values('Time')]. *)
Theorem missing_time_column_fails (files : list csv_file) :
  files <> [] ->
  Forall (fun f => readable f = true) files ->
  Forall (fun f => ~ In "Time" (first_line f)) files ->
  load_and_clean files = Err KeyError.
Proof.
  intros Hne Hr Ht. unfold load_and_clean.
  assert (Hloop : forall st, exists st', loop st files = Ok st').
  { clear Hne Ht. induction Hr as [| f files Hf _ IH]; intros st; simpl.
    - eexists; reflexivity.
    - destruct (loop_body_ok st f Hf) as [st1 E]. rewrite E. simpl. apply IH. }
  destruct (Hloop loop_init) as [st E]. rewrite E. cbn [bind].
  destruct (loop_frames _ _ _ E) as (dfs & L & C). simpl in L. rewrite L.
  destruct dfs as [| d dfs].
  { destruct files; [contradiction | discriminate C]. }
  unfold concat. cbn [bind]. unfold sort_values. cbn [columns].
  rewrite index_of_None; [reflexivity |].
  intros Hin. unfold union_columns in Hin.
  apply fold_union_columns in Hin. destruct Hin as [[] | [df [Hdf Hs]]].
  assert (Hc : In (columns df) (map first_line files)).
  { rewrite <- C. apply in_map. exact Hdf. }
  apply in_map_iff in Hc. destruct Hc as [f [Ef Hf]].
  rewrite Forall_forall in Ht. apply (Ht f Hf). rewrite Ef. exact Hs.
Qed.

Lemma missing_time_column_fails_witness :
  load_and_clean [mkCsv ["Date"; "Traffic In"; "Traffic Out"]
                        [[CStr "2024-01-01"; CNum 5; CNum 7]]]
  = Err KeyError.
Proof.
  apply missing_time_column_fails.
  - discriminate.
  - repeat constructor.
  - repeat constructor. simpl. intros [H | [H | [H | []]]]; discriminate H.
Defined.

(** ** Ingestion: the table *)

Lemma insert_row_perm (i : nat) (r : list cell) (l : list (list cell)) :
  Permutation (insert_row i r l) (r :: l).
Proof.
  induction l as [| r' l IH]; simpl; [apply Permutation_refl |].
  destruct (cell_leb _ _); [apply Permutation_refl |].
  eapply perm_trans; [apply perm_skip; exact IH | apply perm_swap].
Qed.

Lemma sort_rows_perm (i : nat) (l : list (list cell)) :
  Permutation (sort_rows i l) l.
Proof.
  induction l as [| r l IH]; simpl; [constructor |].
  eapply perm_trans; [apply insert_row_perm | apply perm_skip; exact IH].
Qed.

Lemma Qle_bool_total (p q : Q) : Qle_bool p q = true \/ Qle_bool q p = true.
Proof.
  destruct (Qlt_le_dec p q) as [H | H].
  - left. apply Qle_bool_iff, Qlt_le_weak. exact H.
  - right. apply Qle_bool_iff. exact H.
Qed.

(** Any two sort keys are ordered one way or the other. *)
Lemma cell_leb_total (a b : cell) : cell_leb a b = true \/ cell_leb b a = true.
Proof.
  destruct a as [p | s |], b as [q | t |]; simpl; auto.
  - apply Qle_bool_total.
  - apply String.leb_total.
Qed.

Lemma insert_row_ascending (i : nat) (r : list cell) (l : list (list cell)) :
  ascending i l -> ascending i (insert_row i r l).
Proof.
  unfold ascending. induction l as [| r' l IH]; simpl; intros S.
  - repeat constructor.
  - destruct (cell_leb (nth i r CNaN) (nth i r' CNaN)) eqn:E.
    + constructor; [exact S | constructor; exact E].
    + inversion S as [| ? ? S' H]; subst.
      constructor; [apply IH; exact S' |].
      assert (E' : cell_leb (nth i r' CNaN) (nth i r CNaN) = true).
      { destruct (cell_leb_total (nth i r CNaN) (nth i r' CNaN)); congruence. }
      destruct l as [| r'' l]; simpl.
      * constructor. exact E'.
      * destruct (cell_leb (nth i r CNaN) (nth i r'' CNaN));
          constructor; [exact E' |].
        inversion H; assumption.
Qed.

Lemma sort_rows_ascending (i : nat) (l : list (list cell)) :
  ascending i (sort_rows i l).
Proof.
  induction l as [| r l IH]; simpl; [constructor |].
  apply insert_row_ascending. exact IH.
Qed.

(** The steps of a successful ingestion. *)
Lemma load_and_clean_steps (files : list csv_file) (df : DataFrame) :
  load_and_clean files = Ok df ->
  exists st c i,
    loop loop_init files = Ok st /\
    concat (df_list st) = Ok c /\
    index_of "Time" (columns c) = Some i /\
    length (columns c) = 3%nat /\
    columns df = ["Time"; "in"; "out"] /\
    rows df = sort_rows i (rows c).
Proof.
  unfold load_and_clean.
  destruct (loop loop_init files) as [st |] eqn:El; cbn [bind]; [| discriminate].
  destruct (concat (df_list st)) as [c |] eqn:Ec; cbn [bind]; [| discriminate].
  unfold sort_values.
  destruct (index_of "Time" (columns c)) as [i |] eqn:Ei; [| discriminate].
  destruct (comparable _); cbn [bind]; [| discriminate].
  unfold set_columns, shape1. cbn [columns rows].
  destruct (Nat.eqb _ _) eqn:E; [| discriminate].
  apply Nat.eqb_eq in E. simpl in E. symmetry in E.
  intros H. inversion H; subst df.
  exists st, c, i. cbn [columns rows]. repeat split; auto.
Qed.

Lemma concat_rows_width (dfs : list DataFrame) (c : DataFrame) :
  concat dfs = Ok c ->
  Forall (fun r => length r = length (columns c)) (rows c).
Proof.
  assert (W : forall target l,
             Forall (fun r => length r = length target)
                    (flat_map (fun df : DataFrame =>
                                 map (realign (columns df) target) (rows df)) l)).
  { intros target l. apply Forall_forall. intros r Hr. apply in_flat_map in Hr.
    destruct Hr as [df [_ Hr]]. apply in_map_iff in Hr.
    destruct Hr as [r0 [<- _]]. unfold realign. apply length_map. }
  destruct dfs as [| d dfs]; [discriminate |].
  unfold concat. intros H. inversion H; subst c. cbn [columns rows].
  apply (W (union_columns (d :: dfs)) (d :: dfs)).
Qed.

(** X3 (shape of the table).  Whenever the ingestion succeeds, the table
    has the three labels Time, in, out and every row has three cells. *)
Theorem table_has_three_columns (files : list csv_file) (df : DataFrame) :
  load_and_clean files = Ok df ->
  columns df = ["Time"; "in"; "out"] /\
  Forall (fun r => length r = 3%nat) (rows df).
Proof.
  intros H.
  destruct (load_and_clean_steps files df H) as (st & c & i & _ & Hc & _ & L & C & R).
  split; [exact C |].
  rewrite R. pose proof (concat_rows_width _ _ Hc) as W. rewrite L in W.
  rewrite Forall_forall in *. intros r Hr. apply W.
  eapply Permutation_in; [apply sort_rows_perm | exact Hr].
Qed.

Lemma table_has_three_columns_witness :
  columns (mkFrame ["Time"; "in"; "out"] [[CStr "2024-01-01"; CNum 5; CNum 7]])
  = ["Time"; "in"; "out"] /\
  Forall (fun r => length r = 3%nat)
         (rows (mkFrame ["Time"; "in"; "out"] [[CStr "2024-01-01"; CNum 5; CNum 7]])).
Proof.
  apply (table_has_three_columns [export_a; export_b]). reflexivity.
Defined.

Lemma fold_union_prefix (dfs : list DataFrame) (acc : list string) :
  exists rest,
    fold_left (fun acc df => acc ++ fresh_labels acc (columns df)) dfs acc
    = acc ++ rest.
Proof.
  revert acc. induction dfs as [| d dfs IH]; intros acc; simpl.
  - exists []. rewrite app_nil_r. reflexivity.
  - destruct (IH (acc ++ fresh_labels acc (columns d))) as [rest E].
    rewrite E. rewrite <- app_assoc. eexists. reflexivity.
Qed.

Lemma fresh_labels_nil (l : list string) : fresh_labels [] l = l.
Proof.
  induction l as [| x l IH]; [reflexivity |].
  unfold fresh_labels in *. simpl. f_equal. exact IH.
Qed.



Lemma index_of_head (s : string) (l : list string) : index_of s (s :: l) = Some O.
Proof. simpl. rewrite String.eqb_refl. reflexivity. Qed.

Lemma index_of_tail (s c : string) (l : list string) :
  s <> c ->
  index_of s (c :: l) = match index_of s l with
                        | Some i => Some (S i)
                        | None => None
                        end.
Proof.
  intros N. simpl. destruct (String.eqb_spec s c); [contradiction | reflexivity].
Qed.

(** Laid out on its own labels, a row stays as it is. *)
Lemma realign_same (cols : list string) (r : list cell) :
  NoDup cols -> length r = length cols -> realign cols cols r = r.
Proof.
  intros ND. revert r. induction ND as [| c cs Hc ND IH]; intros r L.
  - destruct r; [reflexivity | discriminate L].
  - destruct r as [| x r]; [discriminate L |].
    unfold realign. cbn [map]. rewrite index_of_head. simpl nth. f_equal.
    transitivity (realign cs cs r); [| apply IH; simpl in L; lia].
    unfold realign. apply map_ext_in. intros s Hs.
    rewrite index_of_tail by (intros ->; contradiction).
    destruct (index_of s cs); reflexivity.
Qed.

Lemma realign_all (cols : list string) (l : list (list cell)) :
  NoDup cols -> Forall (fun r => length r = length cols) l ->
  map (realign cols cols) l = l.
Proof.
  intros ND W. induction W as [| r l Hr _ IH]; simpl; [reflexivity |].
  rewrite (realign_same _ _ ND Hr), IH. reflexivity.
Qed.

Lemma length_pad (n : nat) (l : list cell) : length (pad n l) = n.
Proof.
  revert l. induction n as [| n IH]; intros l; simpl; [reflexivity |].
  destruct l; simpl; rewrite IH; reflexivity.
Qed.

Lemma table_width_ge (file : csv_file) :
  (length (first_line file) <= table_width file)%nat.
Proof. unfold table_width. destruct (data_lines file); lia. Qed.

(** Every row that the reader makes has one cell for each column. *)
Lemma length_record_cells (file : csv_file) (l : list cell) :
  length (record_cells file l) = length (first_line file).
Proof.
  unfold record_cells. rewrite length_skipn, length_pad.
  pose proof (table_width_ge file). lia.
Qed.



(** X6 (two files).  Two files of more than two columns in which no row
    that the reader makes has a 0 in its third cell give, when the
    ingestion succeeds, a table with one row for each record of the
    first file and for all but one of the records of the second: the
    first record of the second file is dropped. *)
Theorem two_files_lose_one_record (a b : csv_file) (df : DataFrame) :
  load_and_clean [a; b] = Ok df ->
  (2 < length (first_line a))%nat -> (2 < length (first_line b))%nat ->
  Forall (fun r => ne_zero (iloc_col2 r) = true) (records a) ->
  Forall (fun r => ne_zero (iloc_col2 r) = true) (records b) ->
  nrows df = (length (data_lines a) + pred (length (data_lines b)))%nat.
Proof.
  intros H La Lb Fa Fb.
  exact (later_file_loses_one_record a b df H La Lb Fa Fb).
Qed.

(** A second file whose records carry a row label before the three
    columns: of its two records the table has one. *)
Lemma two_files_lose_one_record_witness :
  nrows (mkFrame ["Time"; "in"; "out"]
                 [[CStr "2024-01-01"; CNum 5; CNum 7];
                  [CStr "2024-01-03"; CNum 6; CNum 9]])
  = (length (data_lines export_a)
     + pred (length (data_lines
                       (mkCsv export_header
                              [[CStr "x"; CStr "2024-01-02"; CNum 6; CNum 8];
                               [CStr "y"; CStr "2024-01-03"; CNum 6; CNum 9]]))))%nat.
Proof.
  apply (two_files_lose_one_record export_a
           (mkCsv export_header
                  [[CStr "x"; CStr "2024-01-02"; CNum 6; CNum 8];
                   [CStr "y"; CStr "2024-01-03"; CNum 6; CNum 9]])).
  - reflexivity.
  - simpl. lia.
  - simpl. lia.
  - repeat constructor.
  - repeat constructor.
Defined.

(** The same second file with a 0 in the last field of its second
    record: the filter reads that field, and the table has no row of the
    file. *)
Lemma implicit_index_example :
  load_and_clean
    [export_a;
     mkCsv export_header
           [[CStr "x"; CStr "2024-01-02"; CNum 6; CNum 8];
            [CStr "y"; CStr "2024-01-03"; CNum 6; CNum 0]]]
  = Ok (mkFrame ["Time"; "in"; "out"] [[CStr "2024-01-01"; CNum 5; CNum 7]]).
Proof. reflexivity. Qed.

Lemma index_of_Some (s : string) (l : list string) :
  In s l -> exists i, index_of s l = Some i.
Proof.
  induction l as [| x l IH]; simpl; intros H; [contradiction |].
  destruct (String.eqb_spec s x) as [-> | N]; [eauto |].
  destruct H as [E | H]; [congruence |].
  destruct (IH H) as [i ->]. eauto.
Qed.

(** X7 (wrong number of columns).  A single readable file whose header
    carries the label Time but does not have exactly three columns makes
    the ingestion fail: with a ValueError at the renaming of the columns,
    or before that with a TypeError when the Time column mixes numbers
    and texts. *)
Theorem wrong_column_count_fails (file : csv_file) :
  readable file = true ->
  In "Time" (first_line file) ->
  length (first_line file) <> 3%nat ->
  load_and_clean [file] = Err ValueError \/ load_and_clean [file] = Err TypeError.
Proof.
  intros R Ht L. unfold load_and_clean. simpl loop.
  destruct (loop_body_ok loop_init file R) as [st E]. rewrite E. cbn [bind].
  destruct (loop_body_frame _ _ _ E) as (d & Ld & _ & Cd & _).
  simpl in Ld. rewrite Ld. unfold concat. cbn [bind].
  unfold sort_values, union_columns. cbn [columns rows fold_left].
  rewrite fresh_labels_nil, Cd. simpl app.
  destruct (index_of_Some _ _ Ht) as [i ->].
  destruct (comparable _); [| right; reflexivity].
  cbn [bind]. unfold set_columns, shape1. cbn [columns].
  destruct (Nat.eqb_spec (length ["Time"; "in"; "out"]) (length (first_line file)))
    as [E3 | N]; [| left; reflexivity].
  simpl in E3. exfalso. apply L. symmetry. exact E3.
Qed.

Lemma wrong_column_count_fails_witness :
  load_and_clean [mkCsv ["Time"; "Traffic In"] [[CStr "2024-01-01"; CNum 5]]]
  = Err ValueError \/
  load_and_clean [mkCsv ["Time"; "Traffic In"] [[CStr "2024-01-01"; CNum 5]]]
  = Err TypeError.
Proof.
  apply wrong_column_count_fails.
  - reflexivity.
  - simpl. auto.
  - simpl. lia.
Defined.

(** ** Time features: the calendar *)

Lemma land_3 (y : Z) : Z.land y 3 = y mod 4.
Proof. change 3 with (Z.ones 2). rewrite Z.land_ones by lia. reflexivity. Qed.

Lemma is_leapyear_spec (y : Z) :
  is_leapyear y = true <-> y mod 4 = 0 /\ (y mod 100 <> 0 \/ y mod 400 = 0).
Proof.
  unfold is_leapyear. rewrite land_3.
  rewrite andb_true_iff, orb_true_iff, negb_true_iff, !Z.eqb_eq, Z.eqb_neq.
  reflexivity.
Qed.

Lemma div_4_century (y : Z) : y / 4 = 25 * (y / 100) + (y - y / 100 * 100) / 4.
Proof. Z.div_mod_to_equations. lia. Qed.

Lemma div_400_century (y : Z) : y / 400 = y / 100 / 4.
Proof. Z.div_mod_to_equations. lia. Qed.

(** The terms of Gauss' method that depend on the year. *)
Lemma gauss_year_terms (y : Z) :
  let c := y / 100 in
  let g := y - c * 100 in
  exists k, y * 365 + y / 4 - y / 100 + y / 400
            = 5 * (c - c / 4 * 4) + g + g / 4 + 7 * k.
Proof.
  cbv zeta. rewrite (div_4_century y), (div_400_century y).
  set (c := y / 100). set (g := y - c * 100).
  exists (20871 * (c / 4) + 5217 * (c - c / 4 * 4) + 52 * g).
  assert (Hy : y = 100 * c + g) by (unfold g; ring).
  rewrite Hy at 1. ring.
Qed.

Lemma leap_day_before (y : Z) :
  (y - 1) / 4 - (y - 1) / 100 + (y - 1) / 400 + (if is_leapyear y then 1 else 0)
  = y / 4 - y / 100 + y / 400.
Proof.
  destruct (is_leapyear y) eqn:E.
  - apply is_leapyear_spec in E. Z.div_mod_to_equations. lia.
  - assert (N : ~ (y mod 4 = 0 /\ (y mod 100 <> 0 \/ y mod 400 = 0))).
    { rewrite <- is_leapyear_spec, E. discriminate. }
    Z.div_mod_to_equations. lia.
Qed.

Lemma mod_7_shift (a b k : Z) : b = a + 7 * k -> a mod 7 = b mod 7.
Proof.
  intros ->. rewrite Z.mul_comm. symmetry. apply Z_mod_plus_full.
Qed.

(** Evaluates the tests on the month and the table look-ups once the
    month is known. *)
Ltac reduce_month :=
  repeat match goal with
         | |- context [Z.ltb ?a ?b] =>
             let v := eval vm_compute in (Z.ltb a b) in
             change (Z.ltb a b) with v
         | |- context [nth ?i ?l 0] =>
             let v := eval vm_compute in (nth i l 0) in
             change (nth i l 0) with v
         end;
  cbv iota.



Lemma get_day_of_year_range (y m d : Z) :
  1 <= m <= 12 -> 1 <= d <= 31 -> 1 <= get_day_of_year y m d <= 366.
Proof.
  intros Hm Hd. unfold get_day_of_year. cbv zeta.
  assert (C : m = 1 \/ m = 2 \/ m = 3 \/ m = 4 \/ m = 5 \/ m = 6 \/
              m = 7 \/ m = 8 \/ m = 9 \/ m = 10 \/ m = 11 \/ m = 12) by lia.
  destruct C as [-> | [-> | [-> | [-> | [-> | [-> | [-> | [-> | [-> | [-> | [-> | ->]]]]]]]]]]];
    destruct (is_leapyear y); reduce_month; lia.
Qed.

(** X9 (week number).  For every date whose month is from 1 to 12 and
    whose day is from 1 to 31, the ISO week number lies between 1 and
    53. *)
Theorem week_number_range (t : Timestamp) :
  1 <= month t <= 12 -> 1 <= day t <= 31 ->
  1 <= isocalendar_week t <= 53.
Proof.
  intros Hm Hd. unfold isocalendar_week, iso_week. cbv zeta.
  pose proof (get_day_of_year_range (year t) _ _ Hm Hd) as Hdoy.
  pose proof (dayofweek_range (year t) (month t) (day t)) as Hdow.
  set (doy := get_day_of_year _ _ _) in *.
  set (dow := dayofweek _ _ _) in *.
  destruct (Z.leb_spec 0 (doy - 1 - dow + 3)) as [H0 | H0].
  - assert (Hw : 1 <= (doy - 1 - dow + 3) / 7 + 1 <= 53)
      by (Z.div_mod_to_equations; lia).
    set (w := (doy - 1 - dow + 3) / 7 + 1) in *.
    destruct (Z.ltb_spec w 0); [lia |].
    destruct (Z.eqb_spec w 53); [| lia].
    destruct (Z.ltb_spec (31 - day t + dow) 3); lia.
  - destruct (Z.ltb_spec (doy - 1 - dow + 3) 0); [| lia].
    destruct (_ || _); lia.
Qed.

Lemma week_number_range_witness : 1 <= isocalendar_week (mkDate 2020 12 31) <= 53.
Proof. apply week_number_range; simpl; lia. Defined.

(** ** Time features: the flags *)

Lemma year_start_is_month_start (r : Parsed.row) :
  Daily.Year_Start (derive_row r) = 256 -> Daily.Month_Start (derive_row r) = 256.
Proof.
  unfold derive_row. simpl.
  destruct (Parsed.Time r) as [t |]; simpl; [| discriminate].
  unfold is_year_start, is_month_start.
  destruct (month t =? 1), (day t =? 1); simpl; congruence.
Qed.

(** ** Weekly aggregation: further properties *)

(** X10 (year start within month start).  In the enriched daily table a
    row flagged as the start of a year is flagged as the start of a
    month, and so is every week of the weekly table. *)
Theorem year_start_implies_month_start (df : list Parsed.row) :
  let daily := derive_time_features df in
  Forall (fun r => Daily.Year_Start r = 256 -> Daily.Month_Start r = 256) daily /\
  Forall (fun w => Weekly.Year_Start w = 256 -> Weekly.Month_Start w = 256)
         (aggregate_weekly daily).
Proof.
  cbv zeta. split.
  - apply Forall_forall. intros r Hr. unfold derive_time_features in Hr.
    apply in_map_iff in Hr. destruct Hr as [p [<- _]].
    apply year_start_is_month_start.
  - eapply Forall_impl; [| apply aggregate_weekly_rows].
    intros w (_ & _ & _ & [Hy _] & [Hm Hle]) E.
    rewrite E in Hy. apply in_map_iff in Hy. destruct Hy as [r [Er Hr]].
    assert (Hd : exists p, r = derive_row p).
    { unfold group in Hr. apply filter_In in Hr. destruct Hr as [Hr _].
      unfold derive_time_features in Hr. apply in_map_iff in Hr.
      destruct Hr as [p [<- _]]. eauto. }
    destruct Hd as [p ->].
    pose proof (year_start_is_month_start p Er) as Em.
    rewrite Forall_forall in Hle.
    assert (H256 : 256 <= Weekly.Month_Start w).
    { apply Hle. rewrite <- Em. apply in_map. exact Hr. }
    pose proof (derive_flags_binary df Daily.Month_Start (weekly_key w)
                  (fun r => np_where_binary _)) as B.
    rewrite Forall_forall in B. destruct (B _ Hm); lia.
Qed.

Lemma groupby_skips_unlabelled (df : list Daily.row) (groups : list (key * group_acc)) :
  fold_left groupby_step
            (filter (fun r => match group_key r with
                              | Some _ => true
                              | None => false
                              end) df) groups
  = fold_left groupby_step df groups.
Proof.
  revert groups. induction df as [| r df IH]; intros groups; simpl; [reflexivity |].
  destruct (group_key r) as [k |] eqn:E; simpl.
  - apply IH.
  - rewrite IH. unfold groupby_step at 3. rewrite E. reflexivity.
Qed.

Lemma derive_filter_dated (df : list Parsed.row) :
  derive_time_features (filter dated df)
  = filter (fun r => match group_key r with
                     | Some _ => true
                     | None => false
                     end) (derive_time_features df).
Proof.
  unfold derive_time_features.
  induction df as [| r df IH]; simpl; [reflexivity |].
  assert (E : match group_key (derive_row r) with
              | Some _ => true
              | None => false
              end = dated r).
  { unfold group_key, derive_row, dated. simpl.
    destruct (Parsed.Time r); reflexivity. }
  rewrite E. destruct (dated r); simpl; rewrite IH; reflexivity.
Qed.

(** X11 (rows without a date).  The rows of the daily table whose Time is
    missing take part in no week: the weekly table is the one of the
    dated rows alone. *)
Theorem undated_rows_are_ignored (df : list Parsed.row) :
  aggregate_weekly (derive_time_features (filter dated df))
  = aggregate_weekly (derive_time_features df).
Proof.
  unfold aggregate_weekly, groupby. f_equal.
  rewrite <- (groupby_skips_unlabelled (derive_time_features df)).
  rewrite derive_filter_dated. reflexivity.
Qed.

Lemma filter_perm {A : Type} (f : A -> bool) (l l' : list A) :
  Permutation l l' -> Permutation (filter f l) (filter f l').
Proof.
  induction 1 as [| x l l' _ IH | x y l | l l' l'' _ IH1 _ IH2]; simpl.
  - constructor.
  - destruct (f x); [apply perm_skip |]; exact IH.
  - destruct (f x), (f y); try apply Permutation_refl. apply perm_swap.
  - eapply perm_trans; eassumption.
Qed.

Lemma is_max_Z_perm (m m' : Z) (l l' : list Z) :
  Permutation l l' -> is_max_Z m l -> is_max_Z m' l' -> m = m'.
Proof.
  intros P [Hin Hle] [Hin' Hle']. rewrite Forall_forall in Hle, Hle'.
  apply Z.le_antisymm.
  - apply Hle'. eapply Permutation_in; eassumption.
  - apply Hle. eapply Permutation_in; [apply Permutation_sym |]; eassumption.
Qed.

(** Two lists of labels in strictly ascending order with the same
    elements are the same list. *)
Lemma sorted_keys_unique (l l' : list key) :
  StronglySorted key_lt l -> StronglySorted key_lt l' ->
  (forall k, In k l <-> In k l') -> l = l'.
Proof.
  intros S. revert l'. induction S as [| h l S IH F]; intros l' S' E.
  - destruct l' as [| h' l']; [reflexivity |].
    exfalso. apply (proj2 (E h')). left. reflexivity.
  - destruct S' as [| h' l' S' F'].
    { exfalso. apply (proj1 (E h)). left. reflexivity. }
    rewrite Forall_forall in F, F'.
    assert (Hh : h = h').
    { destruct (proj1 (E h) (or_introl eq_refl)) as [Eq | Hin]; [auto |].
      destruct (proj2 (E h') (or_introl eq_refl)) as [Eq | Hin']; [auto |].
      exfalso. apply (key_lt_irrefl h).
      exact (key_lt_trans _ _ _ (F _ Hin') (F' _ Hin)). }
    subst h'. f_equal. apply IH; [exact S' |].
    intros k. split; intros Hk.
    + destruct (proj1 (E k) (or_intror Hk)) as [Eq | Hin]; [| exact Hin].
      subst k. exfalso. exact (key_lt_irrefl h (F _ Hk)).
    + destruct (proj2 (E k) (or_intror Hk)) as [Eq | Hin]; [| exact Hin].
      subst k. exfalso. exact (key_lt_irrefl h (F' _ Hk)).
Qed.

Lemma Forall2_same_keys (l l' : list Weekly.row) (P P' : Weekly.row -> Prop)
    (R : Weekly.row -> Weekly.row -> Prop) :
  map weekly_key l = map weekly_key l' ->
  Forall P l -> Forall P' l' ->
  (forall w w', weekly_key w = weekly_key w' -> P w -> P' w' -> R w w') ->
  Forall2 R l l'.
Proof.
  intros E F F' HR. revert l' E F'.
  induction F as [| w l Hw _ IH]; intros [| w' l'] E F'; try discriminate E.
  - constructor.
  - simpl in E. inversion F'; subst.
    assert (Ek : weekly_key w = weekly_key w') by congruence.
    assert (El : map weekly_key l = map weekly_key l') by congruence.
    constructor; [apply HR; assumption | apply IH; assumption].
Qed.

(** X12 (order of the daily rows).  The labels and the flags of the
    weekly table do not depend on the order of the daily rows: two daily
    tables with the same rows give weekly tables with the same labels in
    the same order and the same flags.  The means are left out: a
    float64 sum depends on the order of its terms. *)
Theorem weekly_labels_ignore_row_order (df df' : list Daily.row) :
  Permutation df df' ->
  Forall2 same_labels_and_flags (aggregate_weekly df) (aggregate_weekly df').
Proof.
  intros P.
  apply (Forall2_same_keys _ _ (aggregates_group df) (aggregates_group df')).
  - apply sorted_keys_unique; try apply aggregate_weekly_sorted.
    intros k. rewrite !aggregate_weekly_labels, !in_labels_of.
    split; intros [r [Hr Hk]]; exists r; split; try exact Hk.
    + eapply Permutation_in; eassumption.
    + eapply Permutation_in; [apply Permutation_sym |]; eassumption.
  - apply aggregate_weekly_rows.
  - apply aggregate_weekly_rows.
  - intros w w' Ek (_ & Hi & Ho & Hy & Hm) (_ & Hi' & Ho' & Hy' & Hm').
    rewrite <- Ek in Hi', Ho', Hy', Hm'.
    assert (Pg : Permutation (group (weekly_key w) df) (group (weekly_key w) df'))
      by (apply filter_perm; exact P).
    unfold weekly_key in Ek. injection Ek as Ey Ew.
    unfold same_labels_and_flags. repeat split; try assumption.
    + eapply is_max_Z_perm; [| exact Hy | exact Hy']. apply Permutation_map. exact Pg.
    + eapply is_max_Z_perm; [| exact Hm | exact Hm']. apply Permutation_map. exact Pg.
Qed.

(** The days of [april_days] in reverse order: the three days of week
    14 are summed in the other order. *)
Lemma weekly_labels_ignore_row_order_witness :
  Forall2 same_labels_and_flags
          (aggregate_weekly (derive_time_features april_days))
          (aggregate_weekly (rev (derive_time_features april_days))).
Proof.
  apply weekly_labels_ignore_row_order. apply Permutation_rev.
Defined.

(** X23 (order of the sum).  The weekly mean does depend on the order
    of the daily rows: the [in] values 0.1, 0.1, 0.4 of one week average
    to 0.20000000000000004 in this order and to 0.19999999999999998 in
    the order 0.1, 0.4, 0.1. *)
Theorem weekly_mean_depends_on_order :
  Permutation tenths_a tenths_b /\
  map Weekly.in_mean (aggregate_weekly tenths_a)
  = [Fin (7205759403792795 # 36028797018963968)] /\
  map Weekly.in_mean (aggregate_weekly tenths_b)
  = [Fin (7205759403792793 # 36028797018963968)].
Proof.
  split; [| split; vm_compute; reflexivity].
  unfold tenths_a, tenths_b, derive_time_features. cbn [map].
  apply perm_skip. apply perm_swap.
Qed.

Lemma Qred_inject_Z (z : Z) : Qred (inject_Z z) = inject_Z z.
Proof.
  unfold Qred, inject_Z. cbn [Qnum Qden].
  pose proof (Z.ggcd_gcd z 1) as G.
  pose proof (Z.ggcd_correct_divisors z 1) as D.
  destruct (Z.ggcd z 1) as [g [aa bb]]. cbn [fst snd] in *.
  rewrite Z.gcd_1_r in G. subst g. destruct D as [D1 D2].
  rewrite Z.mul_1_l in D1, D2. subst. reflexivity.
Qed.

Lemma round_div_1 (n : Z) : round_div n 1 = n.
Proof.
  unfold round_div. rewrite Z.div_1_r, Z.mod_1_r. reflexivity.
Qed.

Lemma ilog2_int (a : Z) : 0 < a -> ilog2 a 1 = Z.log2 a.
Proof.
  intros H. unfold ilog2. change (Z.log2 1) with 0. rewrite Z.sub_0_r.
  pose proof (Z.log2_nonneg a) as N.
  destruct (Z.leb_spec 0 (Z.log2 a)) as [_ | C]; [| lia].
  pose proof (Z.log2_spec a H) as [L _].
  destruct (Z.ltb_spec a (1 * 2 ^ Z.log2 a)) as [C | _]; [lia | reflexivity].
Qed.

Lemma round_pos_int (a : Z) : 0 < a < 2 ^ 53 -> round_pos a 1 = inject_Z a.
Proof.
  intros [H0 H1]. unfold round_pos. rewrite (ilog2_int a H0).
  pose proof (Z.log2_nonneg a) as N.
  assert (L : Z.log2 a < 53) by (apply Z.log2_lt_pow2; assumption).
  rewrite Z.max_l by lia.
  destruct (Z.leb_spec 0 (Z.log2 a - 52)) as [C | C].
  - assert (E : Z.log2 a - 52 = 0) by lia. rewrite E.
    change (1 * 2 ^ 0) with 1. rewrite round_div_1, Z.mul_1_r. reflexivity.
  - rewrite round_div_1. rewrite <- (Qred_inject_Z a).
    apply Qred_complete. unfold Qeq, inject_Z. cbn [Qnum Qden].
    rewrite Z2Pos.id by (apply Z.pow_pos_nonneg; lia). ring.
Qed.

(** An integer of magnitude below [2^53] is a float64 number. *)
Lemma round64_int (z : Z) :
  - 2 ^ 53 < z < 2 ^ 53 -> round64 (inject_Z z) = Fin (inject_Z z).
Proof.
  intros H. unfold round64. rewrite Qred_inject_Z. cbn [inject_Z Qnum Qden].
  destruct (Z.eqb_spec z 0) as [-> | N]; [reflexivity |].
  rewrite round_pos_int by lia.
  assert (B : Qle_bool (inject_Z (2 ^ 1024)) (inject_Z (Z.abs z)) = false).
  { destruct (Qle_bool _ _) eqn:E; [| reflexivity].
    apply Qle_bool_iff in E. rewrite <- Zle_Qle in E.
    assert (2 ^ 53 < 2 ^ 1024) by (vm_compute; reflexivity). lia. }
  rewrite B.
  destruct (Z.ltb_spec 0 z) as [P | P].
  - rewrite Z.abs_eq by lia. reflexivity.
  - rewrite Z.abs_neq by lia.
    change (- inject_Z (- z))%Q with (inject_Z (- - z)).
    rewrite Z.opp_involutive, Qred_inject_Z. reflexivity.
Qed.

Lemma abs_sum_nonneg (l : list Z) : 0 <= abs_sum l.
Proof. induction l as [| z l IH]; simpl; lia. Qed.

(** On integers whose magnitudes sum to less than [2^53] the compensated
    sum is the exact sum, and the compensation stays 0. *)
Lemma kahan_integers (zs : list Z) (s : Z) :
  Z.abs s + abs_sum zs < 2 ^ 53 ->
  fold_left kahan_step (map to_float64 (map inject_Z zs)) (Fin (inject_Z s), Fin 0)
  = (Fin (inject_Z (s + Zsum zs)), Fin 0).
Proof.
  revert s. induction zs as [| z zs IH]; intros s H; simpl in *.
  - rewrite Z.add_0_r. reflexivity.
  - pose proof (abs_sum_nonneg zs) as N.
    assert (Ez : to_float64 (inject_Z z) = Fin (inject_Z z))
      by (apply round64_int; lia).
    assert (Ey : fsub (Fin (inject_Z z)) (Fin 0) = Fin (inject_Z z)).
    { unfold fsub, fadd, fneg. rewrite <- (round64_int z) by lia.
      apply round64_Qeq. ring. }
    assert (Et : fadd (Fin (inject_Z s)) (Fin (inject_Z z)) = Fin (inject_Z (s + z))).
    { unfold fadd. rewrite <- (round64_int (s + z)) by lia.
      apply round64_Qeq. rewrite inject_Z_plus. reflexivity. }
    assert (Ed : fsub (Fin (inject_Z (s + z))) (Fin (inject_Z s)) = Fin (inject_Z z)).
    { unfold fsub, fadd, fneg. rewrite <- (round64_int z) by lia.
      apply round64_Qeq. rewrite inject_Z_plus. ring. }
    assert (Ec : fsub (Fin (inject_Z z)) (Fin (inject_Z z)) = Fin 0).
    { unfold fsub, fadd, fneg. change (Fin 0) with (round64 0).
      apply round64_Qeq. ring. }
    unfold kahan_step at 2. cbn [fst snd].
    rewrite Ez, Ey, Et, Ed, Ec. cbn [is_nan].
    rewrite IH by lia. rewrite Z.add_assoc. reflexivity.
Qed.

Lemma float64_mean_integers (zs : list Z) :
  zs <> [] -> abs_sum zs < 2 ^ 53 -> Z.of_nat (length zs) < 2 ^ 53 ->
  float64_mean (map inject_Z zs)
  = round64 (inject_Z (Zsum zs) / inject_Z (Z.of_nat (length zs))).
Proof.
  intros Hne Hs Hl. unfold float64_mean.
  destruct zs as [| z zs]; [contradiction |].
  change (map inject_Z (z :: zs)) with (inject_Z z :: map inject_Z zs) at 1.
  cbv iota.
  pose proof (kahan_integers (z :: zs) 0) as K.
  change (Fin 0) with (Fin (inject_Z 0)) at 1.
  rewrite K by (simpl Z.abs; lia). cbn [fst]. rewrite Z.add_0_l.
  rewrite length_map. unfold to_float64.
  rewrite round64_int by (pose proof (Nat2Z.is_nonneg (length (z :: zs))); lia).
  unfold fdiv.
  destruct (Qeq_bool (inject_Z (Z.of_nat (length (z :: zs)))) 0) eqn:E.
  - apply Qeq_bool_iff in E. change 0%Q with (inject_Z 0) in E.
    rewrite inject_Z_injective in E. simpl length in E. lia.
  - reflexivity.
Qed.

(** X22 (means of whole numbers).  When the values present in the [in]
    column, or the [out] column, of a week are whole numbers whose
    magnitudes sum to less than [2^53], as byte counts do, the weekly
    mean of the column is the float64 number nearest to their exact
    arithmetic mean: the sum itself is exact, and only the division
    rounds. *)
Theorem weekly_mean_of_integers (df : list Daily.row) (row : Weekly.row)
    (out : bool) (zs : list Z) :
  In row (aggregate_weekly df) ->
  column_values out (group (weekly_key row) df) = map inject_Z zs ->
  zs <> [] -> abs_sum zs < 2 ^ 53 -> Z.of_nat (length zs) < 2 ^ 53 ->
  column_mean out row
  = round64 (inject_Z (Zsum zs) / inject_Z (Z.of_nat (length zs))).
Proof.
  intros Hrow Hv Hne Hs Hl.
  pose proof (aggregate_weekly_rows df) as F. rewrite Forall_forall in F.
  destruct (F row Hrow) as (_ & Hi & Ho & _).
  unfold column_mean, column_values, mean_is in *.
  destruct out.
  - rewrite Ho, Hv. apply float64_mean_integers; assumption.
  - rewrite Hi, Hv. apply float64_mean_integers; assumption.
Qed.

(** The week 14 of [april_days]: 10, 20, 30 average to 20. *)
Lemma weekly_mean_of_integers_witness :
  column_mean false (Weekly.mk 2024 14 (Fin 20)
                       (Fin (7205759403792795 # 72057594037927936)) 0 256)
  = round64 (inject_Z (Zsum [10; 20; 30]) / inject_Z (Z.of_nat (length [10; 20; 30]))).
Proof.
  apply (weekly_mean_of_integers (derive_time_features april_days)).
  - vm_compute. auto.
  - vm_compute. reflexivity.
  - discriminate.
  - vm_compute. reflexivity.
  - vm_compute. reflexivity.
Defined.

(** ** Proportional scaling: further properties *)

(** X14 (quantization).  When [pd.cut] into 48 bins succeeds, it has
    drawn 49 edges and returns one label for each entry.  An entry gets
    no label when it is missing, or does not lie above the lowest edge,
    or lies above the highest edge; any other entry gets a label from 1
    to 48, the number of a bin whose lower edge lies below the value and
    whose upper edge does not. *)
Theorem quantization_bounds (x : list float) (labels : list (option Z)) :
  cut x 48 (range 1 49) = Ok labels ->
  length labels = length x /\
  exists bins,
    nbins_to_bins x 48 = Ok bins /\ length bins = 49%nat /\
    forall i v, nth_error x i = Some v ->
      (nth_error labels i = Some None /\
       (v = NaN \/ ~ float_lt (nth 0 bins NaN) v \/ float_lt (nth 48 bins NaN) v))
      \/
      (exists l : nat,
          (1 <= l <= 48)%nat /\ v <> NaN /\
          float_lt (nth (l - 1) bins NaN) v /\ ~ float_lt (nth l bins NaN) v /\
          nth_error labels i = Some (Some (Z.of_nat l))).
Proof.
  unfold cut. intros H.
  destruct (nbins_to_bins x 48) as [bins |] eqn:Hb; [| discriminate H].
  cbn [bind] in H. pose proof (length_nbins_to_bins _ _ _ Hb) as L. split.
  - unfold bins_to_cuts in H.
    destruct (has_duplicates bins && _); [discriminate H |].
    destruct (negb _); [discriminate H |].
    inversion H. apply length_zip_with. symmetry. apply length_searchsorted.
  - exists bins. split; [reflexivity |]. split; [exact L |].
    intros i v Hv. exact (bins_to_cuts_entry x bins labels i v L H Hv).
Qed.

(** On [far_series] the least value gets no label: the lowest edge has
    not moved below it. *)
Lemma quantization_bounds_witness :
  let labels := [None; Some 1; Some 48] in
  length labels = length far_series /\
  exists bins,
    nbins_to_bins far_series 48 = Ok bins /\ length bins = 49%nat /\
    forall i v, nth_error far_series i = Some v ->
      (nth_error labels i = Some None /\
       (v = NaN \/ ~ float_lt (nth 0 bins NaN) v \/ float_lt (nth 48 bins NaN) v))
      \/
      (exists l : nat,
          (1 <= l <= 48)%nat /\ v <> NaN /\
          float_lt (nth (l - 1) bins NaN) v /\ ~ float_lt (nth l bins NaN) v /\
          nth_error labels i = Some (Some (Z.of_nat l))).
Proof.
  apply (quantization_bounds far_series). vm_compute. reflexivity.
Defined.


(** The edges drawn over a series without any value are all NaN. *)
Lemma edges_of_no_value :
  has_duplicates
    (match linspace NaN NaN (48 + 1) with
     | b0 :: bins' => fsub b0 (fmul (fsub NaN NaN) one_per_mille) :: bins'
     | [] => []
     end) = true.
Proof. vm_compute. reflexivity. Qed.

(** X15 (nothing to quantize).  When the weekly table has no [out_mean]
    value, because it has no row or only missing means, the scaling cell
    fails with a ValueError, whatever the daily table is. *)
Theorem scaling_needs_a_value (df : list Daily.row) (weekly_df : list Weekly.row) :
  dropna (map Weekly.out_mean weekly_df) = [] ->
  scaling_cell df weekly_df = Err ValueError.
Proof.
  intros H. unfold scaling_cell, out_quant_scaled, cut, nbins_to_bins.
  unfold nanmin, nanmax. rewrite H.
  destruct (map Weekly.out_mean weekly_df) as [| v x]; [reflexivity |].
  cbn [is_inf orb feqb bind]. unfold bins_to_cuts.
  rewrite edges_of_no_value. reflexivity.
Qed.

Lemma scaling_needs_a_value_witness :
  scaling_cell two_days [Weekly.mk 2024 1 (Fin 1) NaN 0 0] = Err ValueError.
Proof. apply scaling_needs_a_value. reflexivity. Defined.

(** ** Trend isolation: further properties *)

(** X17 (the weekly columns stay).  Trend isolation only adds columns:
    without the four trend columns, the trend table is the weekly table it
    was computed from. *)
Theorem split_trend_keeps_weekly_columns (w : list Weekly.row) :
  map weekly_part (split_trend w) = w.
Proof.
  apply nth_error_ext. intros i. rewrite nth_error_map.
  destruct (nth_error (split_trend w) i) as [r |] eqn:E; simpl.
  - destruct (nth_error_assign_trends _ _ _ _ _ _ _ E)
      as (cur & a & b & c & d & Hw & _ & _ & _ & _ & ->).
    rewrite Hw. destruct cur. reflexivity.
  - apply nth_error_None in E. rewrite length_split_trend in E.
    symmetry. apply nth_error_None. exact E.
Qed.

(** ** Finalization and export: further properties *)

Lemma mem_str_In (s : string) (l : list string) : mem_str s l = true <-> In s l.
Proof.
  unfold mem_str. rewrite existsb_exists. split.
  - intros [x [Hx E]]. apply String.eqb_eq in E. subst. exact Hx.
  - intros H. exists s. split; [exact H | apply String.eqb_refl].
Qed.

(** X18 (missing column).  A frame that, once in_mean and out_mean are
    renamed, lacks one of the eight labels of the output makes the last
    cell fail with a KeyError; nothing is written. *)
Theorem missing_column_fails (repr : cell -> string) (df : DataFrame) (c : string) :
  In c columns_to_keep -> ~ In c (final_labels df) ->
  finalize_and_write repr df = Err KeyError.
Proof.
  intros Hc Hn. unfold finalize_and_write, getitem. fold (final_labels df).
  destruct (forallb (fun s => mem_str s (final_labels df)) columns_to_keep) eqn:E;
    [| reflexivity].
  exfalso. rewrite forallb_forall in E. apply Hn, mem_str_In, E. exact Hc.
Qed.

Lemma missing_column_fails_witness :
  finalize_and_write (fun _ => EmptyString)
    (mkFrame ["in_mean"; "out_mean"; "Month_Start"; "Year_Start";
              "in_up"; "in_down"; "out_up"] [])
  = Err KeyError.
Proof.
  apply (missing_column_fails _ _ "out_down").
  - simpl. auto 10.
  - simpl. intros H. repeat (destruct H as [H | H]; [discriminate H |]). exact H.
Defined.

Lemma positions_absent (s : string) (cols : list string) (from : nat) :
  ~ In s cols -> positions s cols from = [].
Proof.
  revert from. induction cols as [| c cols IH]; intros from H; simpl; [reflexivity |].
  destruct (String.eqb_spec s c) as [-> | N].
  - exfalso. apply H. left. reflexivity.
  - apply IH. intros Hin. apply H. right. exact Hin.
Qed.

(** Among pairwise distinct labels, a label sits at one position. *)
Lemma positions_distinct (s : string) (cols : list string) (from : nat) :
  NoDup cols -> In s cols ->
  exists i, positions s cols from = [(from + i)%nat] /\
            nth_error cols i = Some s.
Proof.
  intros ND. revert from. induction ND as [| c cols Hc ND IH]; intros from Hin.
  - contradiction.
  - simpl. destruct (String.eqb_spec s c) as [-> | N].
    + exists O. rewrite (positions_absent c cols _ Hc), Nat.add_0_r. auto.
    + destruct Hin as [E | Hin]; [congruence |].
      destruct (IH (S from) Hin) as [i [Hp Hi]].
      exists (S i). rewrite Hp. split; [f_equal; lia | exact Hi].
Qed.

(** [df[labels]] on a frame with pairwise distinct labels. *)
Lemma getitem_distinct (labels : list string) (df : DataFrame) :
  NoDup (columns df) ->
  Forall (fun s => In s (columns df)) labels ->
  exists f,
    getitem labels df = Ok f /\ columns f = labels /\ nrows f = nrows df /\
    Forall (fun r => length r = length labels) (rows f).
Proof.
  intros ND F. unfold getitem.
  assert (E : forallb (fun s => mem_str s (columns df)) labels = true).
  { apply forallb_forall. intros s Hs. apply mem_str_In.
    rewrite Forall_forall in F. apply F. exact Hs. }
  rewrite E. eexists. split; [reflexivity |]. cbn [columns rows].
  set (idx := flat_map (fun s => positions s (columns df) 0) labels).
  assert (Hidx : map (fun i => nth i (columns df) EmptyString) idx = labels
                 /\ length idx = length labels).
  { unfold idx. clear E idx. induction F as [| s labels Hs _ [IH1 IH2]]; simpl.
    - auto.
    - destruct (positions_distinct s (columns df) 0 ND Hs) as [i [Hp Hi]].
      rewrite Hp. simpl. rewrite IH1, IH2.
      rewrite (nth_error_nth _ _ EmptyString Hi). auto. }
  destruct Hidx as [H1 H2]. split; [exact H1 |]. split.
  - unfold nrows. cbn [rows]. apply length_map.
  - apply Forall_forall. intros r Hr. apply in_map_iff in Hr.
    destruct Hr as [r0 [<- _]]. rewrite length_map. exact H2.
Qed.

(** X19 (export of any frame).  For every frame whose labels are pairwise
    distinct once in_mean and out_mean are renamed, and which then has the
    eight labels of the output, the last cell succeeds: it keeps exactly
    the eight columns in their order and writes the header line and one
    line for each row. *)
Theorem export_of_a_frame (repr : cell -> string) (df : DataFrame) :
  NoDup (final_labels df) ->
  Forall (fun c => In c (final_labels df)) columns_to_keep ->
  exists final_df data,
    finalize_and_write repr df
    = Ok (final_df,
          mkFile "./output/Processed_traffic.csv"
            ("in,out,Month_Start,Year_Start,in_up,in_down,out_up,out_down"
             :: data)) /\
    columns final_df = columns_to_keep /\
    Forall (fun r => length r = 8%nat) (rows final_df) /\
    length data = nrows df.
Proof.
  intros ND F. unfold finalize_and_write.
  destruct (getitem_distinct columns_to_keep
              (rename [("in_mean", "in"); ("out_mean", "out")] df) ND F)
    as (f & Hg & Hc & Hn & Hw).
  rewrite Hg. cbn [bind]. rewrite to_csv_no_index, Hc.
  exists f, (map (fun r => join (map repr r)) (rows f)).
  split; [reflexivity |]. split; [exact Hc |]. split; [exact Hw |].
  rewrite length_map. exact Hn.
Qed.

Lemma export_of_a_frame_witness :
  exists final_df data,
    finalize_and_write (fun _ => "0") (weekly_frame (split_trend three_weeks))
    = Ok (final_df,
          mkFile "./output/Processed_traffic.csv"
            ("in,out,Month_Start,Year_Start,in_up,in_down,out_up,out_down"
             :: data)) /\
    columns final_df = columns_to_keep /\
    Forall (fun r => length r = 8%nat) (rows final_df) /\
    length data = nrows (weekly_frame (split_trend three_weeks)).
Proof.
  apply export_of_a_frame.
  - repeat constructor; simpl; intros H;
      repeat (destruct H as [H | H]; [discriminate H |]); exact H.
  - unfold columns_to_keep.
    repeat (apply Forall_cons; [simpl; auto 12 |]). apply Forall_nil.
Defined.

(** ** The whole run *)

Lemma convert_rejects {A : Type} (f : cell -> result A) (column : list cell) :
  Exists (fun c => exists e, f c = Err e) column ->
  exists e, convert f column = Err e.
Proof.
  induction 1 as [c l [e He] | c l _ [e IH]]; simpl.
  - rewrite He. simpl. eauto.
  - destruct (f c) as [a | e']; simpl; [| eauto].
    rewrite IH. simpl. eauto.
Qed.

Lemma parse_rows_rejects (to_datetime : cell -> result (option Timestamp))
    (l : list (list cell)) :
  Exists (fun r => exists e, to_datetime (nth 0 r CNaN) = Err e) l ->
  exists e, parse_rows to_datetime l = Err e.
Proof.
  intros H. unfold parse_rows.
  destruct (convert_rejects to_datetime (map (fun r => nth 0 r CNaN) l)) as [e He].
  { apply Exists_exists in H. destruct H as [r [Hr He]].
    apply Exists_exists. exists (nth 0 r CNaN). split; [| exact He].
    apply in_map_iff. exists r. auto. }
  rewrite He. simpl. eauto.
Qed.

(** X20 (a Time that cannot be parsed).  When the parser rejects the Time
    of one row of the ingested table, the run fails as a whole: no row is
    skipped and no file is written. *)
Theorem unparsable_time_fails (to_datetime : cell -> result (option Timestamp))
    (repr : cell -> string) (files : list csv_file) (table : DataFrame) :
  load_and_clean files = Ok table ->
  Exists (fun r => exists e, to_datetime (nth 0 r CNaN) = Err e) (rows table) ->
  exists e, run to_datetime repr files = Err e.
Proof.
  intros Hl Hx. unfold run. rewrite Hl. cbn [bind].
  destruct (parse_rows_rejects to_datetime _ Hx) as [e He].
  rewrite He. simpl. eauto.
Qed.

Lemma unparsable_time_fails_witness :
  exists e, run example_parser (fun _ => EmptyString) [export_c] = Err e.
Proof.
  apply (unparsable_time_fails _ _ [export_c]
           (mkFrame ["Time"; "in"; "out"]
                    [[CStr "2024-01-03"; CNum 6; CNum (1 # 10000)];
                     [CStr "2024-01-05"; CNum 6; CNum 9]])).
  - reflexivity.
  - apply Exists_cons_hd. exists ValueError. reflexivity.
Defined.

(** X21 (a run that succeeds).  When the notebook runs to its end, the file
    it has written is ./output/Processed_traffic.csv, its first line is
    the header of the eight columns, and the lines after it are one for
    each distinct (Year, Week_Number) label of the enriched daily table, of
    which there is at least one. *)
Theorem successful_run (to_datetime : cell -> result (option Timestamp))
    (repr : cell -> string) (files : list csv_file) (f : written_file) :
  run to_datetime repr files = Ok f ->
  path f = "./output/Processed_traffic.csv" /\
  exists table parsed data,
    load_and_clean files = Ok table /\
    parse_rows to_datetime (rows table) = Ok parsed /\
    lines f = "in,out,Month_Start,Year_Start,in_up,in_down,out_up,out_down" :: data /\
    length data = length (distinct_labels (derive_time_features parsed)) /\
    data <> [].
Proof.
  unfold run. intros H.
  destruct (load_and_clean files) as [table |] eqn:El; cbn [bind] in H; [| discriminate H].
  destruct (parse_rows to_datetime (rows table)) as [parsed |] eqn:Ep;
    cbn [bind] in H; [| discriminate H].
  set (daily := derive_time_features parsed) in *.
  destruct (scaling_cell daily (aggregate_weekly daily)) as [sc |] eqn:Es;
    cbn [bind] in H; [| discriminate H].
  rewrite finalize_weekly_frame in H. cbn [bind snd] in H.
  injection H as <-. split; [reflexivity |].
  exists table, parsed. eexists. split; [reflexivity |]. split; [exact Ep |].
  split; [reflexivity |].
  assert (L : length (split_trend (aggregate_weekly daily))
              = length (distinct_labels daily)).
  { rewrite length_split_trend. apply aggregate_weekly_length. }
  split.
  - rewrite length_map. exact L.
  - intros E. apply (f_equal (@length string)) in E.
    rewrite length_map, length_split_trend in E. simpl in E.
    assert (W : aggregate_weekly daily = [])
      by (destruct (aggregate_weekly daily); [reflexivity | discriminate E]).
    rewrite W in Es. discriminate Es.
Qed.

Lemma successful_run_witness :
  path (mkFile "./output/Processed_traffic.csv"
          ["in,out,Month_Start,Year_Start,in_up,in_down,out_up,out_down";
           "0,0,0,0,0,0,0,0"; "0,0,0,0,0,0,0,0"])
  = "./output/Processed_traffic.csv" /\
  exists table parsed data,
    load_and_clean example_files = Ok table /\
    parse_rows example_parser (rows table) = Ok parsed /\
    lines (mkFile "./output/Processed_traffic.csv"
             ["in,out,Month_Start,Year_Start,in_up,in_down,out_up,out_down";
              "0,0,0,0,0,0,0,0"; "0,0,0,0,0,0,0,0"])
    = "in,out,Month_Start,Year_Start,in_up,in_down,out_up,out_down" :: data /\
    length data = length (distinct_labels (derive_time_features parsed)) /\
    data <> [].
Proof.
  apply (successful_run example_parser (fun _ => "0") example_files).
  vm_compute. reflexivity.
Defined.
